(** * Discovery of Active Directory domain controllers: a verification
      development for [environment/discovery/discovery_utils.py].

    The Python module resolves SRV records in DNS, probes every candidate
    for reachability and round trip time, and orders the candidates by the
    measured time.  The embedding below follows the module function by
    function and keeps its names.

    Conventions of the embedding:
    - Python [int] is [Z]; a reading of [time.time()] is a [Z] count of
      clock ticks, so [end - start] is exact;
    - Python [str] is [string], compared by code point as [str.__lt__] does;
    - a call that may raise is a computation in the error monad [py];
    - [None] standing for "unreachable" is [None] of an [option];
    - what the network answers is an explicit argument of each function
      that talks to it. *)

From Stdlib Require Import ZArith List String Ascii Bool Lia.
From Stdlib Require Import Sorted Permutation DecimalString.
Import ListNotations.

Open Scope string_scope.
Open Scope list_scope.
Open Scope Z_scope.

(** ** The Python runtime the module relies on *)

Module Py.

(** Exception classes that reach the module.  All of them derive from
    [Exception]; the first five derive from [dns.exception.DNSException],
    [OSError] is [socket.error] and the last one is ldap3's. *)
Inductive exn : Type :=
| NXDOMAIN
| DNSTimeout
| FormError
| NoNameservers
| DNSSyntaxError
| OSError
| TypeError
| NameError
| OverflowError
| RuntimeError
| LDAPInvalidPortError.

Definition is_DNSException (e : exn) : bool :=
  match e with
  | NXDOMAIN | DNSTimeout | FormError | NoNameservers | DNSSyntaxError => true
  | _ => false
  end.

(** A computation that returns a value or raises. *)
Inductive py (A : Type) : Type :=
| Return (a : A)
| Raise (e : exn).

Arguments Return {A} a.
Arguments Raise {A} e.

Definition bind {A B : Type} (m : py A) (k : A -> py B) : py B :=
  match m with
  | Return a => k a
  | Raise e => Raise e
  end.

(** [str(n)] for an [int]. *)
Definition str (n : Z) : string := NilZero.string_of_int (Z.to_int n).

(** Truth value of an optional [int] ([None] and [0] are false). *)
Definition truthy_int (n : option Z) : bool :=
  match n with
  | None => false
  | Some z => negb (z =? 0)
  end.

(** Truth value of an optional [str] ([None] and [''] are false). *)
Definition truthy_str (s : option string) : bool :=
  match s with
  | None => false
  | Some EmptyString => false
  | Some _ => true
  end.

(** [len(l)]. *)
Definition len {A : Type} (l : list A) : Z := Z.of_nat (List.length l).

(** [l[:n]]: a negative [n] counts from the end of the list. *)
Definition slice_to {A : Type} (l : list A) (n : Z) : list A :=
  if n <? 0 then firstn (Z.to_nat (len l + n)) l
  else firstn (Z.to_nat n) l.

(** [sorted(l)] with [ltb] for [<].  Python's sort is stable and calls
    nothing but [<]; the result is the list obtained by inserting each
    element, from the last to the first, in front of the first element
    that is not smaller than it. *)
Section Sorted.
Context {A : Type}.
Variable ltb : A -> A -> bool.

Fixpoint insert (x : A) (l : list A) : list A :=
  match l with
  | [] => [x]
  | y :: l' => if ltb y x then y :: insert x l' else x :: y :: l'
  end.

Fixpoint sorted (l : list A) : list A :=
  match l with
  | [] => []
  | x :: l' => insert x (sorted l')
  end.

(** [x] may stand before [y] in a sorted list: [y < x] is false. *)
Definition not_after (x y : A) : Prop := ltb y x = false.
End Sorted.

(** [sorted(l, key=key)]: the keys are compared, the elements moved. *)
Definition sorted_by {A K : Type} (ltb : K -> K -> bool) (key : A -> K)
           (l : list A) : list A :=
  sorted (fun a b => ltb (key a) (key b)) l.

(** [<] on tuples [(int, int)] and [(float, str)]: the first components
    decide unless they are equal. *)
Definition int_pair_ltb (a b : Z * Z) : bool :=
  (fst a <? fst b) || ((fst a =? fst b) && (snd a <? snd b)).

Definition rtt_uri_ltb (a b : Z * string) : bool :=
  (fst a <? fst b) || ((fst a =? fst b) && String.ltb (snd a) (snd b)).

End Py.

Import Py.

Declare Scope py_scope.
Delimit Scope py_scope with py.
Notation "x <- m ;; k" := (bind m (fun x => k))
  (at level 100, m at next level, right associativity) : py_scope.
Open Scope py_scope.

(** ** Collaborators outside the module *)

(** [dns.rdatatype.RdataType], as far as the module names it. *)
Module rdatatype.
Inductive RdataType : Type := A | NS | CNAME | SRV.
End rdatatype.

(** One SRV record of a DNS answer; [Name] is [dns.name.Name]. *)
Record srv_rdata (Name : Type) : Type := mk_srv_rdata {
  target : Name;
  port : Z;
  priority : Z;
  weight : Z
}.

Arguments mk_srv_rdata {Name}.
Arguments target {Name}.
Arguments port {Name}.
Arguments priority {Name}.
Arguments weight {Name}.

(** [dns.resolver.Resolver], as far as the module configures it. *)
Record Resolver : Type := mk_Resolver {
  timeout : Z;
  lifetime : Z
}.

(** What [Resolver.resolve(name, rdtype, tcp)] answers or raises. *)
Definition dns_net (Name : Type) : Type :=
  Resolver -> string -> rdatatype.RdataType -> bool -> py (list (srv_rdata Name)).

(** What one [ldap3.Connection] to a URI meets: whether building it,
    [Server(uri, get_info=DSA)] and then [Connection(server)], raises,
    whether [open()] raises, what [start_tls()] returns or raises, and the
    clock before [open()], after it and after [start_tls()]. *)
Record ldap_conn : Type := mk_ldap_conn {
  conn_new : py unit;
  conn_open : py unit;
  conn_start_tls : py bool;
  clock_start : Z;
  clock_opened : Z;
  clock_secured : Z
}.

Definition ldap_net : Type := string -> ldap_conn.

(** Sockets.  [socket.socket(family, SOCK_STREAM)] may raise (a family
    the host does not support, no descriptor left); [connect] may raise
    anything ([socket.error], or an error about its argument); [shutdown]
    and [close] raise nothing but [socket.error], which the module passes
    over: a flag records whether [shutdown] succeeds, and nothing depends
    on what [close] does. *)
Inductive family : Type := AF_INET | AF_INET6.

Inductive sockaddr : Type :=
| addr4 (host : string) (port : Z)
| addr6 (host : string) (port flowinfo scope_id : Z).

Record connect_attempt : Type := mk_connect_attempt {
  connect_result : py unit;
  clock_before : Z;
  clock_after : Z;
  shutdown_ok : bool
}.

Record tcp_net : Type := mk_tcp_net {
  new_socket : family -> py unit;
  connect_to : family -> sockaddr -> connect_attempt
}.

(** What a probe does to its sockets, in order. *)
Inductive sock_event : Type :=
| ev_socket (f : family)
| ev_connect (f : family) (a : sockaddr)
| ev_shutdown (f : family)
| ev_close (f : family).

(** A DNS record as the module passes it on: (host, port, priority, weight). *)
Definition server_tuple : Type := string * Z * Z * Z.

(** What a probe returns: [None], or [(round trip time, uri)]. *)
Definition rtt_result : Type := option (Z * string).

(** ** Closures

    The lambdas of [_order_ldap_servers_by_rtt] and [_order_kdcs_by_rtt]
    refer to the local variables [server_host] and [server_port] of the
    enclosing call.  A Python closure holds the variable, not the value it
    had when the lambda was made: the body reads the cells when it is
    called.  [cells] is that part of the frame, a [closure] is a body
    waiting for the cells, and a [task] is a callable handed to a worker,
    which sees the network through its own [W]. *)
Record cells : Type := mk_cells {
  server_host : option string;
  server_port : option Z
}.

Definition unbound : cells := mk_cells None None.

Definition read {A : Type} (cell : option A) : py A :=
  match cell with
  | Some a => Return a
  | None => Raise NameError
  end.

Definition task (W : Type) : Type := W -> py rtt_result.

Definition closure (W : Type) : Type := cells -> task W.

(** One turn of [for server_tuple in records]: the tuple is unpacked into
    the two variables and the lambda is appended. *)
Definition loop_turn {W : Type} (fn : closure W)
           (state : cells * list (closure W)) (record : server_tuple)
  : cells * list (closure W) :=
  let '(host, port, _, _) := record in
  (mk_cells (Some host) (Some port), snd state ++ [fn]).

(** The callables as they are once the loop is over and they get called. *)
Definition lookup_fns_at_call {W : Type} (fn : closure W)
           (records : list server_tuple) : list (task W) :=
  let '(frame, lookup_rtt_fns) := fold_left (loop_turn fn) records (unbound, []) in
  map (fun f => f frame) lookup_rtt_fns.

(** ** The module *)

Section Discovery.

(** [dns.name.Name] and its [to_text(omit_final_dot)], from dnspython. *)
Variable Name : Type.
Variable to_text : Name -> bool -> string.

(** The constants of [environment.discovery.discovery_constants], each
    format string taken with its [format(...)] applied. *)
Variable DNS_TIMEOUT_SECONDS : Z.
Variable LDAP_DNS_SRV_FORMAT : string -> string.
Variable LDAP_SITE_AWARE_DNS_SRV_FORMAT : string -> string -> string.
Variable KERBEROS_DNS_SRV_FORMAT : string -> string.
Variable KERBEROS_SITE_AWARE_DNS_SRV_FORMAT : string -> string -> string.

(** [environment.format_utils.format_hostname_or_ip_and_port_to_uri]. *)
Variable format_hostname_or_ip_and_port_to_uri : string -> Z -> bool -> string.

(** *** [_resolve_record_in_dns] *)

(** The sort key [(record_tuple[2], -1*record_tuple[3])]. *)
Definition priority_weight_key (record_tuple : server_tuple) : Z * Z :=
  let '(_, _, prio, wt) := record_tuple in (prio, -1 * wt).

Definition decode_record (record : srv_rdata Name) : server_tuple :=
  (to_text (target record) true, port record, priority record, weight record).

Definition _resolve_record_in_dns (dns : dns_net Name) (record_name : string)
           (record_type : rdatatype.RdataType) : py (list server_tuple) :=
  let temp_resolver := mk_Resolver DNS_TIMEOUT_SECONDS DNS_TIMEOUT_SECONDS in
  match dns temp_resolver record_name record_type true with
  | Raise e =>
      if is_DNSException e then Return []   (* except dns.exception.DNSException *)
      else Return []                        (* except Exception *)
  | Return resolved_records =>
      let record_tuples := map decode_record resolved_records in
      let record_tuples := sorted_by int_pair_ltb priority_weight_key record_tuples in
      Return record_tuples
  end.

(** *** [_check_ldap_server_availability_and_rtt] *)

(** ['ldap://{}:{}'.format(server_host, server_port)]. *)
Definition ldap_uri_of (server_host : string) (server_port : Z) : string :=
  ("ldap://" ++ server_host ++ ":" ++ str server_port)%string.

(** [Server(...)] and [Connection(...)] stand before the [try]: what they
    raise leaves the function; what [open()] and [start_tls()] raise is
    caught. *)
Definition _check_ldap_server_availability_and_rtt (net : ldap_net)
           (server_host : string) (server_port : Z) (secure : bool) : py rtt_result :=
  let ldap_uri := ldap_uri_of server_host server_port in
  let conn := net ldap_uri in
  _ <- conn_new conn ;;
  let start := clock_start conn in
  match conn_open conn with
  | Raise _ => Return None                              (* except: return None *)
  | Return _ =>
      if secure then
        match conn_start_tls conn with
        | Raise _ => Return None                        (* except: return None *)
        | Return false => Return None                   (* not conn.start_tls() *)
        | Return true => Return (Some (clock_secured conn - start, ldap_uri))
        end
      else Return (Some (clock_opened conn - start, ldap_uri))
  end.

(** *** [_check_kdc_availability_and_rtt] *)

(** The [finally] clause of one attempt: [close] is skipped when
    [shutdown] raises, and [socket.error] is passed over. *)
Definition release (f : family) (attempt : connect_attempt) : list sock_event :=
  if shutdown_ok attempt then [ev_shutdown f; ev_close f] else [ev_shutdown f].

(** The loop over [candidates]; the events of the sockets are recorded
    next to the value returned.  A successful [connect] returns from
    inside the loop, after the [finally] clause; a [connect] that raises,
    [socket.error] or not, is passed over after the [finally] clause. *)
Fixpoint try_candidates (net : tcp_net) (kdc_uri : string)
         (candidates : list (family * sockaddr)) : rtt_result * list sock_event :=
  match candidates with
  | [] => (None, [])
  | (temp_socket, temp_addr_tuple) :: rest =>
      let attempt := connect_to net temp_socket temp_addr_tuple in
      let start := clock_before attempt in
      match connect_result attempt with
      | Return _ =>
          let end_ := clock_after attempt in
          (Some (end_ - start, kdc_uri),
           ev_connect temp_socket temp_addr_tuple :: release temp_socket attempt)
      | Raise e =>
          let '(result, events) := try_candidates net kdc_uri rest in
          (result,
           ev_connect temp_socket temp_addr_tuple :: release temp_socket attempt ++ events)
      end
  end.

Definition kdc_candidates (server_host : string) (server_port : Z)
  : list (family * sockaddr) :=
  let addr_tuple4 := addr4 server_host server_port in
  let addr_tuple6 := addr6 server_host server_port 0 0 in
  [(AF_INET6, addr_tuple6); (AF_INET, addr_tuple4)].

(** The two sockets are made before the loop and outside every [try],
    the IPv4 one first: what [socket.socket] raises leaves the function
    before any connect. *)
Definition kdc_probe (net : tcp_net) (server_host : string) (server_port : Z)
  : py rtt_result * list sock_event :=
  let kdc_uri := format_hostname_or_ip_and_port_to_uri server_host server_port false in
  match new_socket net AF_INET with
  | Raise e => (Raise e, [ev_socket AF_INET])
  | Return _ =>
      match new_socket net AF_INET6 with
      | Raise e => (Raise e, [ev_socket AF_INET; ev_socket AF_INET6])
      | Return _ =>
          let '(result, events) :=
            try_candidates net kdc_uri (kdc_candidates server_host server_port) in
          (Return result, ev_socket AF_INET :: ev_socket AF_INET6 :: events)
      end
  end.

Definition _check_kdc_availability_and_rtt (net : tcp_net)
           (server_host : string) (server_port : Z) : py rtt_result :=
  fst (kdc_probe net server_host server_port).

(** *** [_process_sort_return_rtt_ordering_results] *)

(** [executor.submit] for every callable, then [task.result()] in the
    order of submission: the first task that raised re-raises there.  The
    worker of the [i]-th task sees the network through [executor i]. *)
Fixpoint gather {W : Type} (executor : nat -> W) (i : nat)
         (lookup_rtt_fns : list (task W)) : py (list rtt_result) :=
  match lookup_rtt_fns with
  | [] => Return []
  | lookup_fn :: rest =>
      result <- lookup_fn (executor i) ;;
      results <- gather executor (S i) rest ;;
      Return (result :: results)
  end.

(** [[result_tuple for result_tuple in rtt_results
      if result_tuple[0] is not None]]: the subscript is evaluated on
    every element in turn, and [None] is not subscriptable; the first
    component of a tuple is a round trip time, a number, never [None]. *)
Fixpoint drop_unreachable (rtt_results : list rtt_result) : py (list (Z * string)) :=
  match rtt_results with
  | [] => Return []
  | None :: _ => Raise TypeError
  | Some result_tuple :: rest =>
      kept <- drop_unreachable rest ;;
      Return (result_tuple :: kept)
  end.

(** The trimming at the end of the function. *)
Definition short_list_of (result_list : list string)
           (maximum_result_list_length : option Z) : list string :=
  match maximum_result_list_length with
  | Some limit =>
      if truthy_int maximum_result_list_length && (limit <? len result_list)
      then slice_to result_list limit
      else result_list
  | None => result_list
  end.

(** [result_list] as computed from the gathered results. *)
Definition result_list_of (rtt_results : list rtt_result) : py (list string) :=
  rtt_uri_tuples <- drop_unreachable rtt_results ;;
  let rtt_uri_tuples := sorted rtt_uri_ltb rtt_uri_tuples in
  Return (map snd rtt_uri_tuples).

Definition _process_sort_return_rtt_ordering_results {W : Type}
           (executor : nat -> W) (lookup_rtt_fns : list (task W))
           (uri_desc : string) (maximum_result_list_length : option Z)
  : py (list string) :=
  rtt_results <- gather executor 0%nat lookup_rtt_fns ;;
  result_list <- result_list_of rtt_results ;;
  let short_list := short_list_of result_list maximum_result_list_length in
  Return short_list.

(** *** [_order_ldap_servers_by_rtt] and [_order_kdcs_by_rtt] *)

(** [lambda: _check_ldap_server_availability_and_rtt(server_host,
    server_port, secure)]. *)
Definition ldap_lambda (secure : bool) : closure ldap_net :=
  fun frame net =>
    host <- read (server_host frame) ;;
    port <- read (server_port frame) ;;
    _check_ldap_server_availability_and_rtt net host port secure.

Definition _order_ldap_servers_by_rtt (executor : nat -> ldap_net)
           (ldap_server_records : list server_tuple)
           (server_limit : option Z) (secure : bool) : py (list string) :=
  let lookup_rtt_fns := lookup_fns_at_call (ldap_lambda secure) ldap_server_records in
  _process_sort_return_rtt_ordering_results executor lookup_rtt_fns "LDAP" server_limit.

(** [lambda: _check_kdc_availability_and_rtt(server_host, server_port)]. *)
Definition kdc_lambda : closure tcp_net :=
  fun frame net =>
    host <- read (server_host frame) ;;
    port <- read (server_port frame) ;;
    _check_kdc_availability_and_rtt net host port.

Definition _order_kdcs_by_rtt (executor : nat -> tcp_net)
           (kdc_server_records : list server_tuple)
           (server_limit : option Z) : py (list string) :=
  let lookup_rtt_fns := lookup_fns_at_call kdc_lambda kdc_server_records in
  _process_sort_return_rtt_ordering_results executor lookup_rtt_fns "KDC" server_limit.

(** *** The public entry points *)

(** The record name: the site aware format when [site] is given and not
    empty, the plain one otherwise. *)
Definition ldap_srv_of (domain : string) (site : option string) : string :=
  let ldap_srv := LDAP_DNS_SRV_FORMAT domain in
  match site with
  | Some s => if truthy_str site then LDAP_SITE_AWARE_DNS_SRV_FORMAT s domain else ldap_srv
  | None => ldap_srv
  end.

Definition krb_srv_of (domain : string) (site : option string) : string :=
  let krb_srv := KERBEROS_DNS_SRV_FORMAT domain in
  match site with
  | Some s => if truthy_str site then KERBEROS_SITE_AWARE_DNS_SRV_FORMAT s domain else krb_srv
  | None => krb_srv
  end.

Definition discover_ldap_domain_controllers_in_domain
           (dns : dns_net Name) (executor : nat -> ldap_net)
           (domain : string) (site : option string)
           (server_limit : option Z) (secure : bool) : py (list string) :=
  let ldap_srv := ldap_srv_of domain site in
  all_ldap_records <- _resolve_record_in_dns dns ldap_srv rdatatype.SRV ;;
  _order_ldap_servers_by_rtt executor all_ldap_records server_limit secure.

Definition discover_kdc_domain_controllers_in_domain
           (dns : dns_net Name) (executor : nat -> tcp_net)
           (domain : string) (site : option string)
           (server_limit : option Z) : py (list string) :=
  let krb_srv := krb_srv_of domain site in
  all_ldap_records <- _resolve_record_in_dns dns krb_srv rdatatype.SRV ;;
  _order_kdcs_by_rtt executor all_ldap_records server_limit.

End Discovery.

(** ** The orders the properties speak of *)

Definition tuple_priority (record_tuple : server_tuple) : Z :=
  let '(_, _, prio, _) := record_tuple in prio.

Definition tuple_weight (record_tuple : server_tuple) : Z :=
  let '(_, _, _, wt) := record_tuple in wt.

(** [<] on the sort keys of two records. *)
Definition priority_weight_ltb (a b : server_tuple) : bool :=
  int_pair_ltb (priority_weight_key a) (priority_weight_key b).

(** Lower priority first; among equal priorities, higher weight first. *)
Definition srv_le (a b : server_tuple) : Prop :=
  tuple_priority a < tuple_priority b \/
  (tuple_priority a = tuple_priority b /\ tuple_weight b <= tuple_weight a).

(** The records of priority [p] and weight [w]. *)
Definition same_rank (p w : Z) (record_tuple : server_tuple) : bool :=
  (tuple_priority record_tuple =? p) && (tuple_weight record_tuple =? w).

(** Shorter round trip first; among equal round trips, smaller URI first. *)
Definition rtt_uri_le (a b : Z * string) : Prop :=
  fst a < fst b \/ (fst a = fst b /\ String.leb (snd a) (snd b) = true).

(** ** A sample deployment

    Sample values standing in for what the module imports, and a small
    network: two domain controllers behind one SRV name. *)

Module Scenario.

(** A name is held as its absolute text, final dot included. *)
Fixpoint drop_final_dot (name : string) : string :=
  match name with
  | EmptyString => EmptyString
  | String c EmptyString => if Ascii.eqb c "." then EmptyString else name
  | String c rest => String c (drop_final_dot rest)
  end.

Definition to_text (name : string) (omit_final_dot : bool) : string :=
  if omit_final_dot then drop_final_dot name else name.

Definition DNS_TIMEOUT_SECONDS : Z := 10.

Definition LDAP_DNS_SRV_FORMAT (domain : string) : string :=
  ("_ldap._tcp.dc._msdcs." ++ domain)%string.

Definition LDAP_SITE_AWARE_DNS_SRV_FORMAT (site domain : string) : string :=
  ("_ldap._tcp." ++ site ++ "._sites.dc._msdcs." ++ domain)%string.

Definition KERBEROS_DNS_SRV_FORMAT (domain : string) : string :=
  ("_kerberos._tcp.dc._msdcs." ++ domain)%string.

Definition KERBEROS_SITE_AWARE_DNS_SRV_FORMAT (site domain : string) : string :=
  ("_kerberos._tcp." ++ site ++ "._sites.dc._msdcs." ++ domain)%string.

Definition format_hostname_or_ip_and_port_to_uri
           (host : string) (port : Z) (is_ipv6_fmt : bool) : string :=
  (host ++ ":" ++ str port)%string.

Definition dc1 : srv_rdata string := mk_srv_rdata "dc1.example.com." 389 0 100.
Definition dc2 : srv_rdata string := mk_srv_rdata "dc2.example.com." 389 0 100.
Definition dc3 : srv_rdata string := mk_srv_rdata "dc3.example.com." 3268 1 50.
Definition dc4 : srv_rdata string := mk_srv_rdata "dc4.example.com." 636 0 200.

(** DNS knows the LDAP name of [example.com], rejects a name with an empty
    label and finds no other name. *)
Definition dns : dns_net string :=
  fun resolver record_name record_type tcp =>
    if (record_name =? "_ldap._tcp.dc._msdcs.example.com")%string
    then Return [dc1; dc2]
    else if (record_name =? "_ldap._tcp.dc._msdcs.example..com")%string
    then Raise DNSSyntaxError
    else Raise NXDOMAIN.

(** DNS is down. *)
Definition dns_down : dns_net string :=
  fun resolver record_name record_type tcp => Raise DNSTimeout.

(** An LDAP server that answers and secures the connection; the [i]-th
    worker measures [5 + i] ticks for the open and [4] more for TLS. *)
Definition up (i : nat) : ldap_conn :=
  mk_ldap_conn (Return tt) (Return tt) (Return true) 0 (5 + Z.of_nat i) (9 + Z.of_nat i).

(** An LDAP server that answers and refuses TLS, one whose TLS layer
    raises, and one that does not answer. *)
Definition no_tls : ldap_conn :=
  mk_ldap_conn (Return tt) (Return tt) (Return false) 0 5 9.
Definition broken_tls : ldap_conn :=
  mk_ldap_conn (Return tt) (Return tt) (Raise OSError) 0 5 9.
Definition down : ldap_conn :=
  mk_ldap_conn (Return tt) (Raise OSError) (Raise OSError) 0 5 9.

(** A URI that ldap3 refuses to build a server for. *)
Definition refused : ldap_conn :=
  mk_ldap_conn (Raise LDAPInvalidPortError) (Return tt) (Return true) 0 5 9.

Definition all_up : nat -> ldap_net := fun i uri => up i.

Definition all_no_tls : nat -> ldap_net := fun i uri => no_tls.

(** A host that refuses IPv6 and accepts IPv4 after 7 ticks. *)
Definition ipv4_only : tcp_net :=
  mk_tcp_net
    (fun f => Return tt)
    (fun f address =>
       match f with
       | AF_INET6 => mk_connect_attempt (Raise OSError) 0 30 false
       | AF_INET => mk_connect_attempt (Return tt) 100 107 true
       end).

(** The same host, probed from a machine that has no IPv6. *)
Definition no_ipv6_here : tcp_net :=
  mk_tcp_net
    (fun f => match f with AF_INET6 => Raise OSError | AF_INET => Return tt end)
    (connect_to ipv4_only).

(** Two tasks that return what they are told to. *)
Definition told (results : list rtt_result) : list (task unit) :=
  map (fun result (_ : unit) => Return result) results.

Definition worker : nat -> unit := fun _ => tt.

(** The entry points with the sample values in place. *)
Definition discover_ldap :=
  discover_ldap_domain_controllers_in_domain string to_text DNS_TIMEOUT_SECONDS
    LDAP_DNS_SRV_FORMAT LDAP_SITE_AWARE_DNS_SRV_FORMAT.

Definition discover_kdc :=
  discover_kdc_domain_controllers_in_domain string to_text DNS_TIMEOUT_SECONDS
    KERBEROS_DNS_SRV_FORMAT KERBEROS_SITE_AWARE_DNS_SRV_FORMAT
    format_hostname_or_ip_and_port_to_uri.

End Scenario.

(** ** Facts about [sorted] *)

Section SortedFacts.
Context {A : Type}.
Variable ltb : A -> A -> bool.

Hypothesis ltb_asym : forall x y, ltb x y = true -> ltb y x = false.

Lemma insert_Permutation (x : A) (l : list A) :
  Permutation (x :: l) (insert ltb x l).
Proof.
  induction l as [|y l IH]; simpl.
  - apply Permutation_refl.
  - destruct (ltb y x).
    + apply perm_trans with (y :: x :: l).
      * apply perm_swap.
      * apply perm_skip, IH.
    + apply Permutation_refl.
Qed.

Lemma sorted_Permutation (l : list A) : Permutation l (sorted ltb l).
Proof.
  induction l as [|x l IH]; simpl.
  - apply perm_nil.
  - apply perm_trans with (x :: sorted ltb l).
    + apply perm_skip, IH.
    + apply insert_Permutation.
Qed.

Lemma insert_HdRel (a x : A) (l : list A) :
  not_after ltb a x -> HdRel (not_after ltb) a l ->
  HdRel (not_after ltb) a (insert ltb x l).
Proof.
  intros Hax Hal.
  destruct l as [|y l]; simpl.
  - constructor. exact Hax.
  - destruct (ltb y x); constructor.
    + inversion Hal; assumption.
    + exact Hax.
Qed.

Lemma insert_Sorted (x : A) (l : list A) :
  Sorted (not_after ltb) l -> Sorted (not_after ltb) (insert ltb x l).
Proof.
  induction l as [|y l IH]; intros Hs; simpl.
  - repeat constructor.
  - destruct (ltb y x) eqn:Hyx.
    + inversion Hs as [|? ? Hl Hhd]; subst.
      constructor.
      * apply IH, Hl.
      * apply insert_HdRel; [apply ltb_asym, Hyx | exact Hhd].
    + constructor; [exact Hs | constructor; exact Hyx].
Qed.

Lemma sorted_Sorted (l : list A) : Sorted (not_after ltb) (sorted ltb l).
Proof.
  induction l as [|x l IH]; simpl.
  - constructor.
  - apply insert_Sorted, IH.
Qed.

(** Stability, class by class: elements of which none is smaller than
    another keep the order they had. *)
Lemma insert_filter (P : A -> bool) (x : A) (l : list A) :
  (forall y, P x = true -> P y = true -> ltb y x = false) ->
  filter P (insert ltb x l) = filter P (x :: l).
Proof.
  intros Hclass.
  induction l as [|y l IH]; simpl.
  - reflexivity.
  - destruct (ltb y x) eqn:Hyx; simpl.
    + simpl in IH. rewrite IH.
      destruct (P y) eqn:HPy; [|reflexivity].
      pose proof (fun HPx => Hclass y HPx HPy) as Hnot.
      destruct (P x); [|reflexivity].
      rewrite (Hnot eq_refl) in Hyx. discriminate.
    + reflexivity.
Qed.

Lemma sorted_stable (P : A -> bool) (l : list A) :
  (forall x y, P x = true -> P y = true -> ltb y x = false) ->
  filter P (sorted ltb l) = filter P l.
Proof.
  intros Hclass.
  induction l as [|x l IH]; simpl.
  - reflexivity.
  - rewrite insert_filter by (intros y; apply Hclass).
    simpl. rewrite IH. reflexivity.
Qed.

End SortedFacts.

Lemma Sorted_weaken {A : Type} (R R' : A -> A -> Prop) (l : list A) :
  (forall a b, R a b -> R' a b) -> Sorted R l -> Sorted R' l.
Proof.
  intros Himp Hs.
  induction Hs as [|a l Hs IH Hhd]; constructor.
  - exact IH.
  - destruct Hhd; constructor. apply Himp. assumption.
Qed.

(** ** Facts about the two orders *)

Lemma priority_weight_ltb_asym (a b : server_tuple) :
  priority_weight_ltb a b = true -> priority_weight_ltb b a = false.
Proof.
  destruct a as [[[ha pa] qa] wa], b as [[[hb pb] qb] wb].
  unfold priority_weight_ltb, int_pair_ltb; cbn -[Z.mul Z.ltb Z.eqb].
  intros H.
  apply orb_true_iff in H.
  apply orb_false_iff.
  destruct H as [H | H].
  - apply Z.ltb_lt in H. split.
    + apply Z.ltb_ge. lia.
    + apply andb_false_iff. left. apply Z.eqb_neq. lia.
  - apply andb_true_iff in H. destruct H as [He Hl].
    apply Z.eqb_eq in He. apply Z.ltb_lt in Hl. split.
    + apply Z.ltb_ge. lia.
    + apply andb_false_iff. right. apply Z.ltb_ge. lia.
Qed.

Lemma not_after_srv_le (a b : server_tuple) :
  not_after priority_weight_ltb a b -> srv_le a b.
Proof.
  destruct a as [[[ha pa] qa] wa], b as [[[hb pb] qb] wb].
  unfold not_after, priority_weight_ltb, int_pair_ltb, srv_le; cbn -[Z.mul Z.ltb Z.eqb].
  intros H.
  apply orb_false_iff in H. destruct H as [Hp Hw].
  apply Z.ltb_ge in Hp.
  apply andb_false_iff in Hw.
  destruct Hw as [Hw | Hw].
  - apply Z.eqb_neq in Hw. lia.
  - apply Z.ltb_ge in Hw. lia.
Qed.

Lemma srv_le_trans (a b c : server_tuple) : srv_le a b -> srv_le b c -> srv_le a c.
Proof. unfold srv_le. lia. Qed.

Lemma same_rank_not_smaller (p w : Z) (a b : server_tuple) :
  same_rank p w a = true -> same_rank p w b = true -> priority_weight_ltb b a = false.
Proof.
  destruct a as [[[ha pa] qa] wa], b as [[[hb pb] qb] wb].
  unfold same_rank, priority_weight_ltb, int_pair_ltb; cbn -[Z.mul Z.ltb Z.eqb].
  intros Ha Hb.
  apply andb_true_iff in Ha. destruct Ha as [Ha1 Ha2].
  apply andb_true_iff in Hb. destruct Hb as [Hb1 Hb2].
  apply Z.eqb_eq in Ha1, Ha2, Hb1, Hb2. subst.
  rewrite Z.ltb_irrefl, Z.eqb_refl, Z.ltb_irrefl. reflexivity.
Qed.

(** Strings: [String.compare] is a total order. *)
Lemma string_compare_not_Gt_trans (a b c : string) :
  String.compare a b <> Gt -> String.compare b c <> Gt -> String.compare a c <> Gt.
Proof.
  revert b c.
  induction a as [|x a IH]; intros [|y b] [|z c]; simpl; try congruence.
  unfold Ascii.compare.
  destruct (N.compare_spec (N_of_ascii x) (N_of_ascii y)) as [Hxy | Hxy | Hxy];
    destruct (N.compare_spec (N_of_ascii y) (N_of_ascii z)) as [Hyz | Hyz | Hyz];
    destruct (N.compare_spec (N_of_ascii x) (N_of_ascii z)) as [Hxz | Hxz | Hxz];
    try congruence; try (exfalso; lia).
  apply IH.
Qed.

Lemma string_ltb_false_leb (a b : string) :
  String.ltb b a = false <-> String.leb a b = true.
Proof.
  unfold String.ltb, String.leb.
  rewrite (String.compare_antisym a b).
  destruct (String.compare b a); simpl; split; congruence.
Qed.

Lemma string_leb_not_Gt (a b : string) :
  String.leb a b = true <-> String.compare a b <> Gt.
Proof.
  unfold String.leb.
  destruct (String.compare a b); split; congruence.
Qed.

Lemma string_leb_trans (a b c : string) :
  String.leb a b = true -> String.leb b c = true -> String.leb a c = true.
Proof.
  rewrite !string_leb_not_Gt. apply string_compare_not_Gt_trans.
Qed.

Lemma rtt_uri_ltb_asym (a b : Z * string) :
  rtt_uri_ltb a b = true -> rtt_uri_ltb b a = false.
Proof.
  destruct a as [ra ua], b as [rb ub].
  unfold rtt_uri_ltb; simpl.
  intros H.
  apply orb_true_iff in H.
  apply orb_false_iff.
  destruct H as [H | H].
  - apply Z.ltb_lt in H. split.
    + apply Z.ltb_ge. lia.
    + apply andb_false_iff. left. apply Z.eqb_neq. lia.
  - apply andb_true_iff in H. destruct H as [He Hl].
    apply Z.eqb_eq in He. split.
    + apply Z.ltb_ge. lia.
    + apply andb_false_iff. right.
      unfold String.ltb in *.
      rewrite (String.compare_antisym ub ua).
      destruct (String.compare ua ub); simpl; congruence.
Qed.

Lemma not_after_rtt_uri_le (a b : Z * string) :
  not_after rtt_uri_ltb a b -> rtt_uri_le a b.
Proof.
  destruct a as [ra ua], b as [rb ub].
  unfold not_after, rtt_uri_ltb, rtt_uri_le; simpl.
  intros H.
  apply orb_false_iff in H. destruct H as [Hr Hu].
  apply Z.ltb_ge in Hr.
  apply andb_false_iff in Hu.
  destruct Hu as [Hu | Hu].
  - apply Z.eqb_neq in Hu. left. lia.
  - apply string_ltb_false_leb in Hu.
    destruct (Z.eq_dec ra rb) as [He | Hne]; [right; split; assumption | left; lia].
Qed.

Lemma rtt_uri_le_trans (a b c : Z * string) :
  rtt_uri_le a b -> rtt_uri_le b c -> rtt_uri_le a c.
Proof.
  unfold rtt_uri_le.
  intros [Hab | [Hab Sab]] [Hbc | [Hbc Sbc]]; try (left; lia).
  right. split; [lia | eapply string_leb_trans; eassumption].
Qed.

Lemma sorted_srv_le (l : list server_tuple) :
  StronglySorted srv_le (sorted priority_weight_ltb l).
Proof.
  apply Sorted_StronglySorted.
  - intros a b c. apply srv_le_trans.
  - apply Sorted_weaken with (R := not_after priority_weight_ltb).
    + apply not_after_srv_le.
    + apply sorted_Sorted, priority_weight_ltb_asym.
Qed.

Lemma sorted_rtt_uri_le (l : list (Z * string)) :
  StronglySorted rtt_uri_le (sorted rtt_uri_ltb l).
Proof.
  apply Sorted_StronglySorted.
  - intros a b c. apply rtt_uri_le_trans.
  - apply Sorted_weaken with (R := not_after rtt_uri_ltb).
    + apply not_after_rtt_uri_le.
    + apply sorted_Sorted, rtt_uri_ltb_asym.
Qed.

(** ** The resolver *)

(** C6: when the DNS query answers, [_resolve_record_in_dns] returns the
    decoded tuples: for each record of the answer the text of its target
    without the final dot, its port, its priority and its weight, all of
    them and no other, sorted by priority ascending and then weight
    descending; records of equal priority and equal weight keep the order
    they had in the answer. *)
Theorem resolve_sorts_by_priority_then_weight
        (Name : Type) (to_text : Name -> bool -> string) (seconds : Z)
        (dns : dns_net Name) (record_name : string)
        (record_type : rdatatype.RdataType)
        (resolved_records : list (srv_rdata Name)) :
  dns (mk_Resolver seconds seconds) record_name record_type true
  = Return resolved_records ->
  exists record_tuples,
    _resolve_record_in_dns Name to_text seconds dns record_name record_type
    = Return record_tuples /\
    Permutation
      (map (fun record => (to_text (target record) true, port record,
                           priority record, weight record)) resolved_records)
      record_tuples /\
    StronglySorted srv_le record_tuples /\
    forall p w,
      filter (same_rank p w) record_tuples
      = filter (same_rank p w)
          (map (fun record => (to_text (target record) true, port record,
                               priority record, weight record)) resolved_records).
Proof.
  intros Hdns.
  exists (sorted priority_weight_ltb (map (decode_record Name to_text) resolved_records)).
  unfold _resolve_record_in_dns. rewrite Hdns.
  split; [reflexivity|].
  split; [apply (sorted_Permutation priority_weight_ltb)|].
  split; [apply sorted_srv_le|].
  intros p w.
  apply (sorted_stable priority_weight_ltb).
  intros x y. apply same_rank_not_smaller.
Qed.

Lemma resolve_sorts_by_priority_then_weight_witness :
  exists record_tuples,
    _resolve_record_in_dns string Scenario.to_text 10
      (fun _ _ _ _ => Return [Scenario.dc3; Scenario.dc1; Scenario.dc4; Scenario.dc2])
      "_ldap._tcp.dc._msdcs.example.com" rdatatype.SRV
    = Return record_tuples /\
    record_tuples = [("dc4.example.com", 636, 0, 200); ("dc1.example.com", 389, 0, 100);
                     ("dc2.example.com", 389, 0, 100); ("dc3.example.com", 3268, 1, 50)].
Proof.
  destruct (resolve_sorts_by_priority_then_weight string Scenario.to_text 10
              (fun _ _ _ _ => Return [Scenario.dc3; Scenario.dc1; Scenario.dc4; Scenario.dc2])
              "_ldap._tcp.dc._msdcs.example.com" rdatatype.SRV
              [Scenario.dc3; Scenario.dc1; Scenario.dc4; Scenario.dc2] eq_refl)
    as [record_tuples [Hret _]].
  exists record_tuples.
  split; [exact Hret|].
  vm_compute in Hret. injection Hret as Hret. symmetry. exact Hret.
Defined.

Lemma resolve_when_dns_raises
      (Name : Type) (to_text : Name -> bool -> string) (seconds : Z)
      (dns : dns_net Name) (record_name : string)
      (record_type : rdatatype.RdataType) (e : exn) :
  dns (mk_Resolver seconds seconds) record_name record_type true = Raise e ->
  _resolve_record_in_dns Name to_text seconds dns record_name record_type = Return [].
Proof.
  intros Hdns.
  unfold _resolve_record_in_dns. rewrite Hdns.
  destruct (is_DNSException e); reflexivity.
Qed.

(** C7: when the DNS query raises, be it a DNS failure (name not found,
    timeout, malformed response) or any other error, the resolver returns
    the empty list and raises nothing. *)
Theorem resolve_failure_gives_no_record
        (Name : Type) (to_text : Name -> bool -> string) (seconds : Z)
        (dns : dns_net Name) (record_name : string)
        (record_type : rdatatype.RdataType) (e : exn) :
  dns (mk_Resolver seconds seconds) record_name record_type true = Raise e ->
  _resolve_record_in_dns Name to_text seconds dns record_name record_type = Return [].
Proof.
  apply resolve_when_dns_raises.
Qed.

Lemma resolve_failure_gives_no_record_witness :
  _resolve_record_in_dns string Scenario.to_text 10 Scenario.dns_down
    "_ldap._tcp.dc._msdcs.example.com" rdatatype.SRV = Return [] /\
  _resolve_record_in_dns string Scenario.to_text 10 (fun _ _ _ _ => Raise RuntimeError)
    "_ldap._tcp.dc._msdcs.example.com" rdatatype.SRV = Return [].
Proof.
  split.
  - apply (resolve_failure_gives_no_record string Scenario.to_text 10 Scenario.dns_down
             "_ldap._tcp.dc._msdcs.example.com" rdatatype.SRV DNSTimeout).
    reflexivity.
  - apply (resolve_failure_gives_no_record string Scenario.to_text 10
             (fun _ _ _ _ => Raise RuntimeError)
             "_ldap._tcp.dc._msdcs.example.com" rdatatype.SRV RuntimeError).
    reflexivity.
Defined.

(** ** The ranking *)

Lemma slice_to_prefix {A : Type} (l : list A) (n : Z) :
  exists rest, l = slice_to l n ++ rest.
Proof.
  unfold slice_to.
  destruct (n <? 0).
  - exists (skipn (Z.to_nat (len l + n)) l). symmetry. apply firstn_skipn.
  - exists (skipn (Z.to_nat n) l). symmetry. apply firstn_skipn.
Qed.

Lemma short_list_of_prefix (result_list : list string) (limit : option Z) :
  exists rest, result_list = short_list_of result_list limit ++ rest.
Proof.
  unfold short_list_of.
  destruct limit as [n|].
  - destruct (truthy_int (Some n) && (n <? len result_list)).
    + apply slice_to_prefix.
    + exists []. symmetry. apply app_nil_r.
  - exists []. symmetry. apply app_nil_r.
Qed.

(** C4, as the code has it: the limited list is [full[:limit]] when the
    limit is positive and smaller than the length of the full list; it is
    the full list when there is no limit, when the limit is zero and when
    the limit is the length of the full list or more; and it is a prefix of
    the full list whatever the limit. *)
Theorem short_list_is_a_prefix_cut_at_the_limit
        (full : list string) (limit : option Z) :
  (forall n, limit = Some n -> 0 < n < len full ->
             short_list_of full limit = slice_to full n /\
             slice_to full n = firstn (Z.to_nat n) full) /\
  (limit = None \/ limit = Some 0 \/ (exists n, limit = Some n /\ len full <= n) ->
   short_list_of full limit = full) /\
  (exists rest, full = short_list_of full limit ++ rest).
Proof.
  split; [|split].
  - intros n -> Hn.
    unfold short_list_of, truthy_int.
    replace (n =? 0) with false by (symmetry; apply Z.eqb_neq; lia).
    replace (n <? len full) with true by (symmetry; apply Z.ltb_lt; lia).
    split; [reflexivity|].
    unfold slice_to.
    replace (n <? 0) with false by (symmetry; apply Z.ltb_ge; lia).
    reflexivity.
  - intros [-> | [-> | [n [-> Hn]]]]; unfold short_list_of, truthy_int.
    + reflexivity.
    + reflexivity.
    + replace (n <? len full) with false by (symmetry; apply Z.ltb_ge; lia).
      rewrite andb_false_r. reflexivity.
  - apply short_list_of_prefix.
Qed.

Lemma short_list_is_a_prefix_cut_at_the_limit_witness :
  short_list_of ["ldap://a:389"; "ldap://b:389"; "ldap://c:389"] (Some 2)
  = ["ldap://a:389"; "ldap://b:389"] /\
  short_list_of ["ldap://a:389"; "ldap://b:389"; "ldap://c:389"] (Some 3)
  = ["ldap://a:389"; "ldap://b:389"; "ldap://c:389"].
Proof.
  pose proof (short_list_is_a_prefix_cut_at_the_limit
                ["ldap://a:389"; "ldap://b:389"; "ldap://c:389"] (Some 2)) as [Hcut _].
  pose proof (short_list_is_a_prefix_cut_at_the_limit
                ["ldap://a:389"; "ldap://b:389"; "ldap://c:389"] (Some 3)) as [_ [Hfull _]].
  split.
  - destruct (Hcut 2 eq_refl) as [Hshort Hslice].
    + vm_compute. split; reflexivity.
    + rewrite Hshort, Hslice. reflexivity.
  - apply Hfull. right. right. exists 3. split; [reflexivity | vm_compute; discriminate].
Defined.

(** C4 as written fails on a negative limit: the list is cut from its end. *)
Lemma negative_limit_cuts_the_list :
  ~ (forall (full : list string) (limit : option Z),
        ~ (exists n, limit = Some n /\ 0 < n < len full) ->
        short_list_of full limit = full).
Proof.
  intros H.
  specialize (H ["ldap://a:389"; "ldap://b:389"] (Some (-1))).
  assert (Hcut : short_list_of ["ldap://a:389"; "ldap://b:389"] (Some (-1))
                 = ["ldap://a:389"]) by reflexivity.
  rewrite Hcut in H.
  assert (Hfalse : ["ldap://a:389"] = ["ldap://a:389"; "ldap://b:389"]).
  { apply H. intros [n [Hn Hrange]]. injection Hn as <-. lia. }
  discriminate Hfalse.
Qed.

Lemma drop_unreachable_None (rtt_results : list rtt_result) :
  In None rtt_results -> drop_unreachable rtt_results = Raise TypeError.
Proof.
  induction rtt_results as [|r rs IH]; intros Hin.
  - destruct Hin.
  - destruct r as [t|]; simpl.
    + destruct Hin as [Hr | Hin]; [discriminate|].
      rewrite (IH Hin). reflexivity.
    + reflexivity.
Qed.

Lemma drop_unreachable_reachable (rtt_uri_tuples : list (Z * string)) :
  drop_unreachable (map Some rtt_uri_tuples) = Return rtt_uri_tuples.
Proof.
  induction rtt_uri_tuples as [|t ts IH]; simpl.
  - reflexivity.
  - rewrite IH. reflexivity.
Qed.

(** C2, what the code does: as soon as one probe of the batch returns
    [None] the ranking raises [TypeError], from the subscript
    [result_tuple[0]] of the filter, and returns no list at all. *)
Theorem unreachable_probe_faults_the_ranking
        (W : Type) (executor : nat -> W) (lookup_rtt_fns : list (task W))
        (uri_desc : string) (limit : option Z) (rtt_results : list rtt_result) :
  gather executor 0%nat lookup_rtt_fns = Return rtt_results ->
  In None rtt_results ->
  _process_sort_return_rtt_ordering_results executor lookup_rtt_fns uri_desc limit
  = Raise TypeError.
Proof.
  intros Hgather Hin.
  unfold _process_sort_return_rtt_ordering_results, result_list_of.
  rewrite Hgather. simpl.
  rewrite (drop_unreachable_None _ Hin). reflexivity.
Qed.

Lemma unreachable_probe_faults_the_ranking_witness :
  _process_sort_return_rtt_ordering_results Scenario.worker
    (Scenario.told [Some (50, "ldap://a:389"); None; Some (100, "ldap://c:389")])
    "LDAP" None
  = Raise TypeError.
Proof.
  apply (unreachable_probe_faults_the_ranking unit Scenario.worker
           (Scenario.told [Some (50, "ldap://a:389"); None; Some (100, "ldap://c:389")])
           "LDAP" None
           [Some (50, "ldap://a:389"); None; Some (100, "ldap://c:389")]).
  - reflexivity.
  - right. left. reflexivity.
Defined.

(** C10: on a batch whose probes all returned a round trip time, the
    ranking returns the URIs of the results sorted as (time, URI) pairs,
    trimmed: no result is lost or made up, times never decrease along the
    list and, among equal times, URIs never decrease either, whatever the
    order of submission; and the value returned depends on the gathered
    results and the limit only. *)
Theorem ranking_sorts_by_rtt_then_uri
        (W : Type) (executor : nat -> W) (lookup_rtt_fns : list (task W))
        (uri_desc : string) (limit : option Z)
        (rtt_uri_tuples : list (Z * string)) :
  gather executor 0%nat lookup_rtt_fns = Return (map Some rtt_uri_tuples) ->
  _process_sort_return_rtt_ordering_results executor lookup_rtt_fns uri_desc limit
  = Return (short_list_of (map snd (sorted rtt_uri_ltb rtt_uri_tuples)) limit) /\
  Permutation rtt_uri_tuples (sorted rtt_uri_ltb rtt_uri_tuples) /\
  StronglySorted rtt_uri_le (sorted rtt_uri_ltb rtt_uri_tuples) /\
  forall (W' : Type) (executor' : nat -> W') (lookup_rtt_fns' : list (task W'))
         (uri_desc' : string),
    gather executor' 0%nat lookup_rtt_fns' = gather executor 0%nat lookup_rtt_fns ->
    _process_sort_return_rtt_ordering_results executor' lookup_rtt_fns' uri_desc' limit
    = _process_sort_return_rtt_ordering_results executor lookup_rtt_fns uri_desc limit.
Proof.
  intros Hgather.
  split; [|split; [|split]].
  - unfold _process_sort_return_rtt_ordering_results, result_list_of.
    rewrite Hgather. simpl.
    rewrite drop_unreachable_reachable. reflexivity.
  - apply sorted_Permutation.
  - apply sorted_rtt_uri_le.
  - intros W' executor' fns' desc' Hsame.
    unfold _process_sort_return_rtt_ordering_results.
    rewrite Hsame. reflexivity.
Qed.

Lemma ranking_sorts_by_rtt_then_uri_witness :
  _process_sort_return_rtt_ordering_results Scenario.worker
    (Scenario.told [Some (70, "ldap://c:389"); Some (50, "ldap://b:389");
                    Some (70, "ldap://a:389")])
    "LDAP" None
  = Return ["ldap://b:389"; "ldap://a:389"; "ldap://c:389"].
Proof.
  destruct (ranking_sorts_by_rtt_then_uri unit Scenario.worker
              (Scenario.told [Some (70, "ldap://c:389"); Some (50, "ldap://b:389");
                              Some (70, "ldap://a:389")])
              "LDAP" None
              [(70, "ldap://c:389"); (50, "ldap://b:389"); (70, "ldap://a:389")]
              eq_refl) as [Hret _].
  rewrite Hret. reflexivity.
Defined.

(** ** The probes *)

(** C8, as the code has it: with [secure] true, a server whose
    connection is built and opens and whose [start_tls()] returns false or
    raises makes the LDAP probe return [None], although the same server
    probed without [secure] yields the round trip time of the bare
    connection. *)
Theorem ldap_probe_without_tls_is_unreachable
        (net : ldap_net) (server_host : string) (server_port : Z) :
  conn_new (net (ldap_uri_of server_host server_port)) = Return tt ->
  conn_open (net (ldap_uri_of server_host server_port)) = Return tt ->
  (conn_start_tls (net (ldap_uri_of server_host server_port)) = Return false \/
   exists e, conn_start_tls (net (ldap_uri_of server_host server_port)) = Raise e) ->
  _check_ldap_server_availability_and_rtt net server_host server_port true
  = Return None /\
  _check_ldap_server_availability_and_rtt net server_host server_port false
  = Return (Some (clock_opened (net (ldap_uri_of server_host server_port))
                  - clock_start (net (ldap_uri_of server_host server_port)),
                  ldap_uri_of server_host server_port)).
Proof.
  intros Hnew Hopen Htls.
  unfold _check_ldap_server_availability_and_rtt.
  rewrite Hnew, Hopen. simpl.
  split; [|reflexivity].
  destruct Htls as [Hfalse | [e Hraise]].
  - rewrite Hfalse. reflexivity.
  - rewrite Hraise. reflexivity.
Qed.

Lemma ldap_probe_without_tls_is_unreachable_witness :
  (_check_ldap_server_availability_and_rtt (fun _ => Scenario.no_tls)
     "dc1.example.com" 389 true = Return None /\
   _check_ldap_server_availability_and_rtt (fun _ => Scenario.no_tls)
     "dc1.example.com" 389 false = Return (Some (5, "ldap://dc1.example.com:389"))) /\
  _check_ldap_server_availability_and_rtt (fun _ => Scenario.broken_tls)
    "dc1.example.com" 389 true = Return None.
Proof.
  split.
  - apply (ldap_probe_without_tls_is_unreachable (fun _ => Scenario.no_tls)
             "dc1.example.com" 389).
    + reflexivity.
    + reflexivity.
    + left. reflexivity.
  - apply (ldap_probe_without_tls_is_unreachable (fun _ => Scenario.broken_tls)
             "dc1.example.com" 389).
    + reflexivity.
    + reflexivity.
    + right. exists OSError. reflexivity.
Defined.

(** C8 as written fails in its last part: the server that refuses TLS is
    not left out of a ranked list, for there is no list; the [None] of its
    probe makes the ranking raise. *)
Lemma tls_refusal_faults_the_ranking :
  _check_ldap_server_availability_and_rtt (fun _ => Scenario.no_tls)
    "dc1.example.com" 389 true = Return None /\
  _order_ldap_servers_by_rtt Scenario.all_no_tls
    [("dc1.example.com", 389, 0, 100)] None true = Raise TypeError /\
  ~ (exists ranked, _order_ldap_servers_by_rtt Scenario.all_no_tls
                      [("dc1.example.com", 389, 0, 100)] None true = Return ranked).
Proof.
  split; [reflexivity|].
  split; [reflexivity|].
  intros [ranked H]. discriminate H.
Qed.

Lemma release_no_connect (f f' : family) (attempt : connect_attempt) (a : sockaddr) :
  ~ In (ev_connect f' a) (release f attempt).
Proof.
  unfold release.
  destruct (shutdown_ok attempt); simpl; intros H;
    repeat (destruct H as [H | H]; [discriminate|]); exact H.
Qed.

(** C9, as the code has it: once its two sockets are made, the KDC probe
    connects over IPv6 first.  If that succeeds it returns the time of the
    IPv6 connect and never touches IPv4.  If it raises, whatever it
    raises, the probe connects over IPv4 to the same host and port, and
    returns the time of the IPv4 connect if that succeeds.  It returns
    [None] exactly when both connects raise. *)
Theorem kdc_probe_tries_ipv6_then_ipv4
        (fmt : string -> Z -> bool -> string)
        (net : tcp_net) (server_host : string) (server_port : Z) :
  new_socket net AF_INET = Return tt ->
  new_socket net AF_INET6 = Return tt ->
  let kdc_uri := fmt server_host server_port false in
  let six := connect_to net AF_INET6 (addr6 server_host server_port 0 0) in
  let four := connect_to net AF_INET (addr4 server_host server_port) in
  let events := snd (kdc_probe fmt net server_host server_port) in
  let result := _check_kdc_availability_and_rtt fmt net server_host server_port in
  (exists later,
      events = ev_socket AF_INET :: ev_socket AF_INET6
               :: ev_connect AF_INET6 (addr6 server_host server_port 0 0) :: later) /\
  (connect_result six = Return tt ->
   result = Return (Some (clock_after six - clock_before six, kdc_uri)) /\
   forall address, ~ In (ev_connect AF_INET address) events) /\
  (forall e, connect_result six = Raise e ->
             In (ev_connect AF_INET (addr4 server_host server_port)) events /\
             (connect_result four = Return tt ->
              result = Return (Some (clock_after four - clock_before four, kdc_uri)))) /\
  (result = Return None <->
   (exists e6, connect_result six = Raise e6) /\
   (exists e4, connect_result four = Raise e4)).
Proof.
  intros Hnew4 Hnew6.
  cbv zeta.
  unfold _check_kdc_availability_and_rtt, kdc_probe, kdc_candidates.
  rewrite Hnew4, Hnew6.
  cbn [try_candidates].
  destruct (connect_result (connect_to net AF_INET6 (addr6 server_host server_port 0 0)))
    as [[]|e6] eqn:H6.
  - cbn [fst snd].
    split; [eexists; reflexivity|].
    split; [|split].
    + intros _. split; [reflexivity|].
      intros address [H | [H | [H | H]]]; try discriminate.
      exact (release_no_connect _ _ _ _ H).
    + intros e He. discriminate He.
    + split.
      * intros H. discriminate H.
      * intros [[e He] _]. discriminate He.
  - destruct (connect_result (connect_to net AF_INET (addr4 server_host server_port)))
      as [[]|e4] eqn:H4; cbn [fst snd].
    + split; [eexists; reflexivity|].
      split; [|split].
      * intros H. discriminate H.
      * intros e _. split; [|intros _; reflexivity].
        right. right. right. apply in_or_app. right. left. reflexivity.
      * split.
        -- intros H. discriminate H.
        -- intros [_ [e He]]. discriminate He.
    + split; [eexists; reflexivity|].
      split; [|split].
      * intros H. discriminate H.
      * intros e _. split; [|intros H; discriminate H].
        right. right. right. apply in_or_app. right. left. reflexivity.
      * split.
        -- intros _. split; eexists; reflexivity.
        -- intros _. reflexivity.
Qed.

Lemma kdc_probe_tries_ipv6_then_ipv4_witness :
  _check_kdc_availability_and_rtt Scenario.format_hostname_or_ip_and_port_to_uri
    Scenario.ipv4_only "dc1.example.com" 88
  = Return (Some (7, "dc1.example.com:88")).
Proof.
  destruct (kdc_probe_tries_ipv6_then_ipv4
              Scenario.format_hostname_or_ip_and_port_to_uri
              Scenario.ipv4_only "dc1.example.com" 88 eq_refl eq_refl)
    as [_ [_ [Hfour _]]].
  destruct (Hfour OSError eq_refl) as [_ Hresult].
  rewrite (Hresult eq_refl). reflexivity.
Defined.

(** C9 as written fails where a socket cannot be made: on a machine
    without IPv6 the probe of a host that answers over IPv4 makes no
    connect at all and returns neither a time nor [None]: it raises. *)
Lemma kdc_probe_raises_without_a_socket :
  kdc_probe Scenario.format_hostname_or_ip_and_port_to_uri
    Scenario.no_ipv6_here "dc1.example.com" 88
  = (Raise OSError, [ev_socket AF_INET; ev_socket AF_INET6]) /\
  connect_result (connect_to Scenario.no_ipv6_here AF_INET (addr4 "dc1.example.com" 88))
  = Return tt /\
  ~ (exists address later,
        snd (kdc_probe Scenario.format_hostname_or_ip_and_port_to_uri
               Scenario.no_ipv6_here "dc1.example.com" 88)
        = ev_connect AF_INET6 address :: later) /\
  (forall result,
      _check_kdc_availability_and_rtt Scenario.format_hostname_or_ip_and_port_to_uri
        Scenario.no_ipv6_here "dc1.example.com" 88 <> Return result).
Proof.
  split; [reflexivity|].
  split; [reflexivity|].
  split.
  - intros [address [later H]]. discriminate H.
  - intros result H. discriminate H.
Qed.

(** ** The closures of the two ordering functions *)

Lemma loop_turn_fns {W : Type} (fn : closure W) (records : list server_tuple)
      (state : cells * list (closure W)) :
  snd (fold_left (loop_turn fn) records state)
  = snd state ++ map (fun _ => fn) records.
Proof.
  revert state.
  induction records as [|record records IH]; intros state; simpl.
  - symmetry. apply app_nil_r.
  - rewrite IH.
    destruct record as [[[host port] prio] wt]. simpl.
    rewrite <- app_assoc. reflexivity.
Qed.

Lemma lookup_fns_share_the_last_cells {W : Type} (fn : closure W)
      (records : list server_tuple) (host : string) (port prio wt : Z) :
  lookup_fns_at_call fn (records ++ [(host, port, prio, wt)])
  = map (fun _ => fn (mk_cells (Some host) (Some port)))
        (records ++ [(host, port, prio, wt)]).
Proof.
  unfold lookup_fns_at_call.
  rewrite fold_left_app. simpl.
  rewrite loop_turn_fns. simpl.
  rewrite !map_app, map_map. reflexivity.
Qed.

(** C3, what the code does: one callable is made per record, and every one
    of them, once called, probes the host and the port of the last record:
    the lambdas read [server_host] and [server_port] when they run, after
    the loop has ended. *)
Theorem every_lookup_probes_the_last_record
        (fmt : string -> Z -> bool -> string) (secure : bool)
        (records : list server_tuple) (host : string) (port prio wt : Z) :
  lookup_fns_at_call (ldap_lambda secure) (records ++ [(host, port, prio, wt)])
  = map (fun _ => fun net : ldap_net =>
                    _check_ldap_server_availability_and_rtt net host port secure)
        (records ++ [(host, port, prio, wt)]) /\
  lookup_fns_at_call (kdc_lambda fmt) (records ++ [(host, port, prio, wt)])
  = map (fun _ => fun net : tcp_net =>
                    _check_kdc_availability_and_rtt fmt net host port)
        (records ++ [(host, port, prio, wt)]).
Proof.
  split; rewrite lookup_fns_share_the_last_cells; reflexivity.
Qed.

(** Two records, two servers that answer: the first server is never
    probed and the second is listed twice. *)
Example first_record_is_not_probed :
  _order_ldap_servers_by_rtt Scenario.all_up
    [("dc1.example.com", 389, 0, 100); ("dc2.example.com", 389, 0, 100)] None false
  = Return ["ldap://dc2.example.com:389"; "ldap://dc2.example.com:389"].
Proof. reflexivity. Qed.

(** ** The public entry points *)

Lemma short_list_of_nil (limit : option Z) : short_list_of [] limit = [].
Proof.
  destruct (short_list_of_prefix [] limit) as [rest Hrest].
  symmetry in Hrest. apply app_eq_nil in Hrest. apply Hrest.
Qed.

Lemma order_nothing_ldap (executor : nat -> ldap_net) (limit : option Z) (secure : bool) :
  _order_ldap_servers_by_rtt executor [] limit secure = Return [].
Proof.
  unfold _order_ldap_servers_by_rtt, _process_sort_return_rtt_ordering_results.
  simpl. rewrite short_list_of_nil. reflexivity.
Qed.

Lemma order_nothing_kdc (fmt : string -> Z -> bool -> string)
      (executor : nat -> tcp_net) (limit : option Z) :
  _order_kdcs_by_rtt fmt executor [] limit = Return [].
Proof.
  unfold _order_kdcs_by_rtt, _process_sort_return_rtt_ordering_results.
  simpl. rewrite short_list_of_nil. reflexivity.
Qed.

(** The limit has no part in whether the ranking returns. *)
Lemma ranking_with_limit {W : Type} (executor : nat -> W)
      (lookup_rtt_fns : list (task W)) (uri_desc : string)
      (limit : option Z) (full : list string) :
  _process_sort_return_rtt_ordering_results executor lookup_rtt_fns uri_desc None
  = Return full ->
  _process_sort_return_rtt_ordering_results executor lookup_rtt_fns uri_desc limit
  = Return (short_list_of full limit).
Proof.
  unfold _process_sort_return_rtt_ordering_results.
  destruct (gather executor 0%nat lookup_rtt_fns) as [rtt_results|e]; simpl;
    [|discriminate].
  destruct (result_list_of rtt_results) as [result_list|e]; simpl; [|discriminate].
  intros Hfull. injection Hfull as <-. reflexivity.
Qed.

Section EntryPoints.
Variable Name : Type.
Variable to_text : Name -> bool -> string.
Variable seconds : Z.
Variable ldap_format krb_format : string -> string.
Variable ldap_site_format krb_site_format : string -> string -> string.
Variable fmt : string -> Z -> bool -> string.

Local Notation "'discover_ldap'" :=
  (discover_ldap_domain_controllers_in_domain Name to_text seconds
     ldap_format ldap_site_format).
Local Notation "'discover_kdc'" :=
  (discover_kdc_domain_controllers_in_domain Name to_text seconds
     krb_format krb_site_format fmt).

(** C5, as the code has it: the entry points check neither the domain nor
    the limit and raise for neither.  A call whose DNS query raises, as the
    query of a malformed name does, returns the empty list whatever the
    limit, like a call that met a network failure; and a call that returns
    a list without a limit returns with any limit, the list being trimmed
    by it. *)
Theorem entry_points_validate_nothing
        (dns : dns_net Name) (ldap_executor : nat -> ldap_net)
        (tcp_executor : nat -> tcp_net)
        (domain : string) (site : option string) (limit : option Z) (secure : bool) :
  (forall e,
      dns (mk_Resolver seconds seconds) (ldap_srv_of ldap_format ldap_site_format domain site)
          rdatatype.SRV true = Raise e ->
      discover_ldap dns ldap_executor domain site limit secure = Return []) /\
  (forall e,
      dns (mk_Resolver seconds seconds) (krb_srv_of krb_format krb_site_format domain site)
          rdatatype.SRV true = Raise e ->
      discover_kdc dns tcp_executor domain site limit = Return []) /\
  (forall full,
      discover_ldap dns ldap_executor domain site None secure = Return full ->
      discover_ldap dns ldap_executor domain site limit secure
      = Return (short_list_of full limit)) /\
  (forall full,
      discover_kdc dns tcp_executor domain site None = Return full ->
      discover_kdc dns tcp_executor domain site limit
      = Return (short_list_of full limit)).
Proof.
  split; [|split; [|split]].
  - intros e Hdns.
    unfold discover_ldap_domain_controllers_in_domain.
    rewrite (resolve_when_dns_raises Name to_text seconds dns _ _ e Hdns).
    simpl. apply order_nothing_ldap.
  - intros e Hdns.
    unfold discover_kdc_domain_controllers_in_domain.
    rewrite (resolve_when_dns_raises Name to_text seconds dns _ _ e Hdns).
    simpl. apply order_nothing_kdc.
  - intros full.
    unfold discover_ldap_domain_controllers_in_domain.
    destruct (_resolve_record_in_dns Name to_text seconds dns _ _) as [records|e];
      simpl; [|discriminate].
    apply ranking_with_limit.
  - intros full.
    unfold discover_kdc_domain_controllers_in_domain.
    destruct (_resolve_record_in_dns Name to_text seconds dns _ _) as [records|e];
      simpl; [|discriminate].
    apply ranking_with_limit.
Qed.

End EntryPoints.

Lemma entry_points_validate_nothing_witness :
  Scenario.discover_ldap Scenario.dns Scenario.all_up "example..com" None (Some (-1)) true
  = Return [] /\
  Scenario.discover_ldap Scenario.dns Scenario.all_up "example.com" None (Some (-1)) true
  = Return ["ldap://dc2.example.com:389"].
Proof.
  pose proof (entry_points_validate_nothing string Scenario.to_text
                Scenario.DNS_TIMEOUT_SECONDS
                Scenario.LDAP_DNS_SRV_FORMAT Scenario.KERBEROS_DNS_SRV_FORMAT
                Scenario.LDAP_SITE_AWARE_DNS_SRV_FORMAT
                Scenario.KERBEROS_SITE_AWARE_DNS_SRV_FORMAT
                Scenario.format_hostname_or_ip_and_port_to_uri
                Scenario.dns Scenario.all_up (fun _ => Scenario.ipv4_only)) as H.
  split.
  - destruct (H "example..com" None (Some (-1)) true) as [Hraise _].
    apply (Hraise DNSSyntaxError). reflexivity.
  - destruct (H "example.com" None (Some (-1)) true) as [_ [_ [Hlimit _]]].
    unfold Scenario.discover_ldap.
    rewrite (Hlimit ["ldap://dc2.example.com:389"; "ldap://dc2.example.com:389"] eq_refl).
    reflexivity.
Defined.

(** C5 as written fails: a negative limit and a malformed domain both come
    back as a list, trimmed or empty, and no fault is raised. *)
Lemma bad_arguments_raise_nothing :
  Scenario.discover_ldap Scenario.dns Scenario.all_up "example.com" None (Some (-1)) false
  = Return ["ldap://dc2.example.com:389"] /\
  Scenario.discover_ldap Scenario.dns Scenario.all_up "example..com" None None false
  = Return [].
Proof. split; reflexivity. Qed.

(** C1, what the code does: the entry point returns one list, the trimmed
    one.  With two servers that answer and a limit of one, the value
    returned is the list of one URI; the full list of two, which the same
    call without a limit returns, is not part of it. *)
Example entry_point_returns_the_short_list_alone :
  Scenario.discover_ldap Scenario.dns Scenario.all_up "example.com" None (Some 1) false
  = Return ["ldap://dc2.example.com:389"] /\
  Scenario.discover_ldap Scenario.dns Scenario.all_up "example.com" None None false
  = Return ["ldap://dc2.example.com:389"; "ldap://dc2.example.com:389"] /\
  Scenario.discover_kdc (fun _ _ _ _ => Return [Scenario.dc1; Scenario.dc2])
    (fun _ => Scenario.ipv4_only) "example.com" None (Some 1)
  = Return ["dc2.example.com:389"].
Proof. repeat split; reflexivity. Qed.

(** * Further properties of the module *)

(** ** Sorting once more *)

Lemma insert_in_front {A : Type} (ltb : A -> A -> bool) (x : A) (l : list A) :
  HdRel (not_after ltb) x l -> insert ltb x l = x :: l.
Proof.
  intros Hhd.
  destruct l as [|y l]; simpl.
  - reflexivity.
  - inversion Hhd as [|? ? Hxy]; subst.
    unfold not_after in Hxy. rewrite Hxy. reflexivity.
Qed.

Lemma sorted_fixes_Sorted {A : Type} (ltb : A -> A -> bool) (l : list A) :
  Sorted (not_after ltb) l -> sorted ltb l = l.
Proof.
  intros Hs.
  induction Hs as [|x l Hs IH Hhd]; simpl.
  - reflexivity.
  - rewrite IH. apply insert_in_front, Hhd.
Qed.

Lemma srv_le_not_after (a b : server_tuple) :
  srv_le a b -> not_after priority_weight_ltb a b.
Proof.
  destruct a as [[[ha pa] qa] wa], b as [[[hb pb] qb] wb].
  unfold not_after, priority_weight_ltb, int_pair_ltb, srv_le; cbn -[Z.mul Z.ltb Z.eqb].
  intros H.
  apply orb_false_iff. split.
  - apply Z.ltb_ge. lia.
  - apply andb_false_iff.
    destruct (Z.eq_dec qb qa) as [He | Hne].
    + right. apply Z.ltb_ge. lia.
    + left. apply Z.eqb_neq. exact Hne.
Qed.

(** Two sorted lists with the same elements are the same list, when no
    two distinct elements rank equal. *)
Lemma sorted_lists_agree {A : Type} (R : A -> A -> Prop) (l1 l2 : list A) :
  (forall a b, R a b -> R b a -> a = b) ->
  Permutation l1 l2 -> StronglySorted R l1 -> StronglySorted R l2 -> l1 = l2.
Proof.
  intros Hanti.
  revert l2.
  induction l1 as [|a l1 IH]; intros l2 Hperm Hs1 Hs2.
  - apply Permutation_nil in Hperm. symmetry. exact Hperm.
  - destruct l2 as [|b l2].
    + apply Permutation_sym, Permutation_nil in Hperm. discriminate Hperm.
    + inversion Hs1 as [|? ? Hs1' Hall1]; subst.
      inversion Hs2 as [|? ? Hs2' Hall2]; subst.
      assert (Hab : a = b).
      { assert (Ha : In a (b :: l2))
          by (apply (Permutation_in _ Hperm); left; reflexivity).
        assert (Hb : In b (a :: l1))
          by (apply (Permutation_in _ (Permutation_sym Hperm)); left; reflexivity).
        destruct Ha as [Ha | Ha]; [symmetry; exact Ha|].
        destruct Hb as [Hb | Hb]; [exact Hb|].
        apply Hanti.
        - rewrite Forall_forall in Hall1. apply Hall1, Hb.
        - rewrite Forall_forall in Hall2. apply Hall2, Ha. }
      subst b.
      f_equal.
      apply IH; [eapply Permutation_cons_inv; exact Hperm | assumption | assumption].
Qed.

Lemma rtt_uri_le_antisym (a b : Z * string) :
  rtt_uri_le a b -> rtt_uri_le b a -> a = b.
Proof.
  destruct a as [ra ua], b as [rb ub].
  unfold rtt_uri_le; simpl.
  intros [Hab | [Hab Sab]] [Hba | [Hba Sba]]; try lia.
  f_equal; [exact Hab | apply String.leb_antisym; assumption].
Qed.

(** X1: an answer whose records already stand in the order of priority
    ascending and weight descending comes back decoded and in the order
    it had. *)
Theorem resolve_keeps_an_ordered_answer
        (Name : Type) (to_text : Name -> bool -> string) (seconds : Z)
        (dns : dns_net Name) (record_name : string)
        (record_type : rdatatype.RdataType)
        (resolved_records : list (srv_rdata Name)) :
  dns (mk_Resolver seconds seconds) record_name record_type true
  = Return resolved_records ->
  Sorted srv_le
    (map (fun record => (to_text (target record) true, port record,
                         priority record, weight record)) resolved_records) ->
  _resolve_record_in_dns Name to_text seconds dns record_name record_type
  = Return (map (fun record => (to_text (target record) true, port record,
                                priority record, weight record)) resolved_records).
Proof.
  intros Hdns Hsorted.
  unfold _resolve_record_in_dns. rewrite Hdns.
  f_equal.
  change (sorted priority_weight_ltb (map (decode_record Name to_text) resolved_records)
          = map (decode_record Name to_text) resolved_records).
  apply sorted_fixes_Sorted.
  apply Sorted_weaken with (R := srv_le); [apply srv_le_not_after | exact Hsorted].
Qed.

Lemma resolve_keeps_an_ordered_answer_witness :
  _resolve_record_in_dns string Scenario.to_text 10
    (fun _ _ _ _ => Return [Scenario.dc4; Scenario.dc2; Scenario.dc1; Scenario.dc3])
    "_ldap._tcp.dc._msdcs.example.com" rdatatype.SRV
  = Return [("dc4.example.com", 636, 0, 200); ("dc2.example.com", 389, 0, 100);
            ("dc1.example.com", 389, 0, 100); ("dc3.example.com", 3268, 1, 50)].
Proof.
  apply (resolve_keeps_an_ordered_answer string Scenario.to_text 10
           (fun _ _ _ _ => Return [Scenario.dc4; Scenario.dc2; Scenario.dc1; Scenario.dc3])
           "_ldap._tcp.dc._msdcs.example.com" rdatatype.SRV
           [Scenario.dc4; Scenario.dc2; Scenario.dc1; Scenario.dc3]).
  - reflexivity.
  - repeat constructor; unfold srv_le; simpl; lia.
Defined.

(** ** The ranking once more *)

Lemma drop_unreachable_Return (rtt_results : list rtt_result)
      (rtt_uri_tuples : list (Z * string)) :
  drop_unreachable rtt_results = Return rtt_uri_tuples ->
  rtt_results = map Some rtt_uri_tuples.
Proof.
  revert rtt_uri_tuples.
  induction rtt_results as [|r rs IH]; intros ts H; simpl in H.
  - injection H as <-. reflexivity.
  - destruct r as [t|]; [|discriminate H].
    destruct (drop_unreachable rs) as [kept|e]; simpl in H; [|discriminate H].
    injection H as <-. simpl. rewrite (IH kept eq_refl). reflexivity.
Qed.

Lemma gather_length {W : Type} (executor : nat -> W) (i : nat)
      (lookup_rtt_fns : list (task W)) (rtt_results : list rtt_result) :
  gather executor i lookup_rtt_fns = Return rtt_results ->
  List.length rtt_results = List.length lookup_rtt_fns.
Proof.
  revert i rtt_results.
  induction lookup_rtt_fns as [|fn fns IH]; intros i rs H; simpl in H.
  - injection H as <-. reflexivity.
  - destruct (fn (executor i)) as [r|e]; simpl in H; [|discriminate H].
    destruct (gather executor (S i) fns) as [rs'|e] eqn:Hrest; simpl in H;
      [|discriminate H].
    injection H as <-. simpl. rewrite (IH (S i) rs' Hrest). reflexivity.
Qed.

Lemma gather_app {W : Type} (executor : nat -> W) (i : nat)
      (before after : list (task W)) :
  gather executor i (before ++ after)
  = (done <- gather executor i before ;;
     rest <- gather executor (i + List.length before)%nat after ;;
     Return (done ++ rest)).
Proof.
  revert i.
  induction before as [|fn fns IH]; intros i; simpl.
  - rewrite Nat.add_0_r.
    destruct (gather executor i after); reflexivity.
  - destruct (fn (executor i)) as [r|e]; simpl; [|reflexivity].
    rewrite IH.
    replace (S i + List.length fns)%nat with (i + S (List.length fns))%nat by lia.
    destruct (gather executor (S i) fns) as [done|e]; simpl; [|reflexivity].
    destruct (gather executor (i + S (List.length fns)) after); reflexivity.
Qed.

(** X2: the order in which the probes were submitted has no part in the
    list returned.  Two batches whose probes all returned a round trip
    time, and returned the same (time, URI) results in whatever order,
    are ranked alike. *)
Theorem ranking_ignores_submission_order
        (W W' : Type) (executor : nat -> W) (executor' : nat -> W')
        (lookup_rtt_fns : list (task W)) (lookup_rtt_fns' : list (task W'))
        (uri_desc uri_desc' : string) (limit : option Z)
        (rtt_uri_tuples rtt_uri_tuples' : list (Z * string)) :
  gather executor 0%nat lookup_rtt_fns = Return (map Some rtt_uri_tuples) ->
  gather executor' 0%nat lookup_rtt_fns' = Return (map Some rtt_uri_tuples') ->
  Permutation rtt_uri_tuples rtt_uri_tuples' ->
  _process_sort_return_rtt_ordering_results executor lookup_rtt_fns uri_desc limit
  = _process_sort_return_rtt_ordering_results executor' lookup_rtt_fns' uri_desc' limit.
Proof.
  intros Hgather Hgather' Hperm.
  unfold _process_sort_return_rtt_ordering_results, result_list_of.
  rewrite Hgather, Hgather'. simpl.
  rewrite !drop_unreachable_reachable. simpl.
  replace (sorted rtt_uri_ltb rtt_uri_tuples')
    with (sorted rtt_uri_ltb rtt_uri_tuples); [reflexivity|].
  apply sorted_lists_agree with (R := rtt_uri_le).
  - apply rtt_uri_le_antisym.
  - apply perm_trans with rtt_uri_tuples.
    + apply Permutation_sym, sorted_Permutation.
    + apply perm_trans with rtt_uri_tuples'; [exact Hperm | apply sorted_Permutation].
  - apply sorted_rtt_uri_le.
  - apply sorted_rtt_uri_le.
Qed.

Lemma ranking_ignores_submission_order_witness :
  _process_sort_return_rtt_ordering_results Scenario.worker
    (Scenario.told [Some (70, "ldap://c:389"); Some (50, "ldap://b:389");
                    Some (70, "ldap://a:389")]) "LDAP" (Some 2)
  = _process_sort_return_rtt_ordering_results Scenario.worker
      (Scenario.told [Some (70, "ldap://a:389"); Some (70, "ldap://c:389");
                      Some (50, "ldap://b:389")]) "LDAP" (Some 2).
Proof.
  apply (ranking_ignores_submission_order unit unit Scenario.worker Scenario.worker
           _ _ "LDAP" "LDAP" (Some 2)
           [(70, "ldap://c:389"); (50, "ldap://b:389"); (70, "ldap://a:389")]
           [(70, "ldap://a:389"); (70, "ldap://c:389"); (50, "ldap://b:389")]).
  - reflexivity.
  - reflexivity.
  - apply perm_trans with [(70, "ldap://c:389"); (70, "ldap://a:389"); (50, "ldap://b:389")].
    + apply perm_skip, perm_swap.
    + apply perm_trans with [(70, "ldap://a:389"); (70, "ldap://c:389"); (50, "ldap://b:389")].
      * apply perm_swap.
      * apply Permutation_refl.
Defined.

(** X3: the ranking returns a list only when every probe of the batch
    returned a round trip time, and it then drops no endpoint and merges
    no duplicate: without a limit the list has one URI per probe, the
    URIs of the results in some order; with a limit it is that list
    trimmed. *)
Theorem ranking_returns_every_endpoint_or_none
        (W : Type) (executor : nat -> W) (lookup_rtt_fns : list (task W))
        (uri_desc : string) (limit : option Z) (short_list : list string) :
  _process_sort_return_rtt_ordering_results executor lookup_rtt_fns uri_desc limit
  = Return short_list ->
  exists (rtt_uri_tuples : list (Z * string)) (result_list : list string),
    gather executor 0%nat lookup_rtt_fns = Return (map Some rtt_uri_tuples) /\
    _process_sort_return_rtt_ordering_results executor lookup_rtt_fns uri_desc None
    = Return result_list /\
    Permutation (map snd rtt_uri_tuples) result_list /\
    List.length result_list = List.length lookup_rtt_fns /\
    short_list = short_list_of result_list limit.
Proof.
  unfold _process_sort_return_rtt_ordering_results, result_list_of.
  destruct (gather executor 0%nat lookup_rtt_fns) as [rtt_results|e] eqn:Hgather;
    simpl; [|discriminate].
  destruct (drop_unreachable rtt_results) as [tuples|e] eqn:Hdrop; simpl;
    [|discriminate].
  intros Hret. injection Hret as <-.
  apply drop_unreachable_Return in Hdrop. subst rtt_results.
  exists tuples, (map snd (sorted rtt_uri_ltb tuples)).
  split; [reflexivity|].
  split; [reflexivity|].
  split; [apply Permutation_map, sorted_Permutation|].
  split; [|reflexivity].
  apply gather_length in Hgather.
  rewrite !length_map in Hgather.
  rewrite length_map.
  rewrite <- (Permutation_length (sorted_Permutation rtt_uri_ltb tuples)).
  exact Hgather.
Qed.

Lemma ranking_returns_every_endpoint_or_none_witness :
  exists rtt_uri_tuples result_list,
    gather Scenario.worker 0%nat
      (Scenario.told [Some (50, "ldap://b:389"); Some (20, "ldap://b:389")])
    = Return (map Some rtt_uri_tuples) /\
    result_list = ["ldap://b:389"; "ldap://b:389"].
Proof.
  destruct (ranking_returns_every_endpoint_or_none unit Scenario.worker
              (Scenario.told [Some (50, "ldap://b:389"); Some (20, "ldap://b:389")])
              "LDAP" (Some 1) ["ldap://b:389"] eq_refl)
    as [tuples [result_list [Hgather [Hfull _]]]].
  exists tuples, result_list.
  split; [exact Hgather|].
  vm_compute in Hfull. injection Hfull as Hfull. symmetry. exact Hfull.
Defined.

(** X4: a callable that raises makes the ranking raise the same
    exception: [task.result()] re-raises it.  The first such callable in
    the order of submission decides, and it does so before any result is
    looked at, unreachable ones included. *)
Theorem probe_fault_is_reraised
        (W : Type) (executor : nat -> W) (before after : list (task W))
        (lookup_fn : task W) (uri_desc : string) (limit : option Z)
        (rtt_results : list rtt_result) (e : exn) :
  gather executor 0%nat before = Return rtt_results ->
  lookup_fn (executor (List.length before)) = Raise e ->
  _process_sort_return_rtt_ordering_results executor
    (before ++ lookup_fn :: after) uri_desc limit
  = Raise e.
Proof.
  intros Hbefore Hraise.
  unfold _process_sort_return_rtt_ordering_results.
  rewrite gather_app, Hbefore. simpl.
  rewrite Hraise. reflexivity.
Qed.

Lemma probe_fault_is_reraised_witness :
  _process_sort_return_rtt_ordering_results Scenario.worker
    (Scenario.told [None; Some (50, "ldap://b:389")]
     ++ (fun _ => Raise RuntimeError) :: Scenario.told [Some (20, "ldap://c:389")])
    "LDAP" None
  = Raise RuntimeError.
Proof.
  apply (probe_fault_is_reraised unit Scenario.worker
           (Scenario.told [None; Some (50, "ldap://b:389")])
           (Scenario.told [Some (20, "ldap://c:389")])
           (fun _ => Raise RuntimeError) "LDAP" None
           [None; Some (50, "ldap://b:389")] RuntimeError).
  - reflexivity.
  - reflexivity.
Defined.

Lemma len_firstn {A : Type} (n : nat) (l : list A) :
  len (firstn n l) = Z.min (Z.of_nat n) (len l).
Proof. unfold len. rewrite length_firstn. lia. Qed.

(** X5: the number of URIs returned, for every limit.  No limit and a
    limit of zero keep the whole list; a positive limit keeps at most
    that many; a negative limit [-k] is not refused: it drops the [k]
    slowest and keeps what is left, if anything. *)
Theorem short_list_length (full : list string) (limit : option Z) :
  len (short_list_of full limit)
  = match limit with
    | None => len full
    | Some n =>
        if n =? 0 then len full
        else if n <? 0 then Z.max 0 (len full + n)
             else Z.min n (len full)
    end.
Proof.
  destruct limit as [n|]; [|reflexivity].
  unfold short_list_of, truthy_int, slice_to.
  assert (Hlen : 0 <= len full) by (unfold len; lia).
  destruct (Z.eqb_spec n 0) as [-> | Hn0]; simpl; [reflexivity|].
  destruct (Z.ltb_spec n (len full)) as [Hlt | Hge];
    destruct (Z.ltb_spec n 0) as [Hneg | Hpos];
    rewrite ?len_firstn; lia.
Qed.

(** ** The LDAP probe once more *)

(** X6: the three outcomes of the LDAP probe.  It raises exactly when
    building the server and the connection raises, and raises the same
    exception.  It returns a round trip time exactly when the connection
    is built, [open()] returns and, if [secure] is asked for,
    [start_tls()] returns true.  In every other case it returns [None]:
    an [open()] that raises, whatever it raises, makes the server
    unreachable with and without [secure]. *)
Theorem ldap_probe_reachable_iff
        (net : ldap_net) (server_host : string) (server_port : Z) (secure : bool) :
  let conn := net (ldap_uri_of server_host server_port) in
  let result :=
    _check_ldap_server_availability_and_rtt net server_host server_port secure in
  (forall e, result = Raise e <-> conn_new conn = Raise e) /\
  ((exists rtt uri, result = Return (Some (rtt, uri))) <->
   conn_new conn = Return tt /\ conn_open conn = Return tt /\
   (secure = true -> conn_start_tls conn = Return true)) /\
  (result = Return None <->
   conn_new conn = Return tt /\
   ((exists e, conn_open conn = Raise e) \/
    (secure = true /\ conn_start_tls conn <> Return true))).
Proof.
  cbv zeta.
  unfold _check_ldap_server_availability_and_rtt.
  destruct (conn_new (net (ldap_uri_of server_host server_port))) as [[]|e0]; simpl.
  - destruct (conn_open (net (ldap_uri_of server_host server_port))) as [[]|e1].
    + destruct secure.
      * destruct (conn_start_tls (net (ldap_uri_of server_host server_port)))
          as [[|]|e2].
        -- split; [intros e; split; discriminate|].
           split.
           ++ split; [intros _; repeat split | intros _; eexists; eexists; reflexivity].
           ++ split; [discriminate|].
              intros [_ [[e H] | [_ H]]]; [discriminate H | exfalso; apply H; reflexivity].
        -- split; [intros e; split; discriminate|].
           split.
           ++ split; [intros [rtt [uri H]]; discriminate H|].
              intros [_ [_ H]]. specialize (H eq_refl). discriminate H.
           ++ split; [|intros _; reflexivity].
              intros _. split; [reflexivity|]. right. split; [reflexivity | discriminate].
        -- split; [intros e; split; discriminate|].
           split.
           ++ split; [intros [rtt [uri H]]; discriminate H|].
              intros [_ [_ H]]. specialize (H eq_refl). discriminate H.
           ++ split; [|intros _; reflexivity].
              intros _. split; [reflexivity|]. right. split; [reflexivity | discriminate].
      * split; [intros e; split; discriminate|].
        split.
        -- split; [|intros _; eexists; eexists; reflexivity].
           intros _. repeat split. discriminate.
        -- split; [discriminate|].
           intros [_ [[e H] | [H _]]]; discriminate H.
    + split; [intros e; split; discriminate|].
      split.
      * split; [intros [rtt [uri H]]; discriminate H|].
        intros [_ [H _]]. discriminate H.
      * split; [|intros _; reflexivity].
        intros _. split; [reflexivity|]. left. exists e1. reflexivity.
  - split.
    + intros e. split; intros H; injection H as <-; reflexivity.
    + split.
      * split; [intros [rtt [uri H]]; discriminate H|].
        intros [H _]. discriminate H.
      * split; [discriminate|].
        intros [H _]. discriminate H.
Qed.

(** X7: what a successful LDAP probe returns.  The URI is
    [ldap://host:port]; with [secure] the time runs from before [open()]
    to after [start_tls()], without it to after [open()]; and a server
    reachable with [secure] is reachable without it, under the same
    URI. *)
Theorem ldap_probe_success
        (net : ldap_net) (server_host : string) (server_port : Z)
        (secure : bool) (rtt : Z) (uri : string) :
  _check_ldap_server_availability_and_rtt net server_host server_port secure
  = Return (Some (rtt, uri)) ->
  let conn := net (ldap_uri_of server_host server_port) in
  uri = ldap_uri_of server_host server_port /\
  rtt = (if secure then clock_secured conn else clock_opened conn) - clock_start conn /\
  _check_ldap_server_availability_and_rtt net server_host server_port false
  = Return (Some (clock_opened conn - clock_start conn, uri)).
Proof.
  unfold _check_ldap_server_availability_and_rtt.
  destruct (conn_new (net (ldap_uri_of server_host server_port))) as [[]|e0]; simpl;
    [|discriminate].
  destruct (conn_open (net (ldap_uri_of server_host server_port))) as [[]|e];
    [|discriminate].
  destruct secure.
  - destruct (conn_start_tls (net (ldap_uri_of server_host server_port)))
      as [[|]|e]; try discriminate.
    intros H. injection H as <- <-. repeat split.
  - intros H. injection H as <- <-. repeat split.
Qed.

Lemma ldap_probe_success_witness :
  _check_ldap_server_availability_and_rtt (Scenario.all_up 2) "dc1.example.com" 389 false
  = Return (Some (7, "ldap://dc1.example.com:389")).
Proof.
  destruct (ldap_probe_success (Scenario.all_up 2) "dc1.example.com" 389 true
              11 "ldap://dc1.example.com:389" eq_refl) as [_ [_ Hplain]].
  rewrite Hplain. reflexivity.
Defined.

(** ** The KDC probe once more *)

(** X8: the socket calls of a KDC probe, all of them and in order.  The
    IPv4 socket is made, then the IPv6 one; if either cannot be made the
    probe stops there, with no connect, and the IPv4 socket already made
    is not closed.  Otherwise the IPv6 socket is connected and, with or
    without success, shut down right after; it is closed only if the
    shutdown did not raise.  The IPv4 socket goes through the same steps
    only when the IPv6 connect raised: when IPv6 succeeds it is neither
    connected, shut down nor closed.  There is no third attempt. *)
Theorem kdc_probe_socket_calls
        (fmt : string -> Z -> bool -> string)
        (net : tcp_net) (server_host : string) (server_port : Z) :
  let six := connect_to net AF_INET6 (addr6 server_host server_port 0 0) in
  let four := connect_to net AF_INET (addr4 server_host server_port) in
  snd (kdc_probe fmt net server_host server_port)
  = [ev_socket AF_INET]
    ++ match new_socket net AF_INET with
       | Raise _ => []
       | Return _ =>
           [ev_socket AF_INET6]
           ++ match new_socket net AF_INET6 with
              | Raise _ => []
              | Return _ =>
                  [ev_connect AF_INET6 (addr6 server_host server_port 0 0);
                   ev_shutdown AF_INET6]
                  ++ (if shutdown_ok six then [ev_close AF_INET6] else [])
                  ++ match connect_result six with
                     | Return _ => []
                     | Raise _ =>
                         [ev_connect AF_INET (addr4 server_host server_port);
                          ev_shutdown AF_INET]
                         ++ (if shutdown_ok four then [ev_close AF_INET] else [])
                     end
              end
       end.
Proof.
  cbv zeta.
  unfold kdc_probe, kdc_candidates.
  destruct (new_socket net AF_INET) as [[]|e]; [|reflexivity].
  destruct (new_socket net AF_INET6) as [[]|e]; [|reflexivity].
  cbn [try_candidates].
  unfold release.
  destruct (connect_result (connect_to net AF_INET6 (addr6 server_host server_port 0 0)))
    as [[]|e6];
    destruct (connect_result (connect_to net AF_INET (addr4 server_host server_port)))
    as [[]|e4];
    destruct (shutdown_ok (connect_to net AF_INET6 (addr6 server_host server_port 0 0)));
    destruct (shutdown_ok (connect_to net AF_INET (addr4 server_host server_port)));
    reflexivity.
Qed.

(** ** The ordering functions once more

    All the callables of one call run the same probe, that of the last
    record; the lemmas below are about such a list of callables. *)

Lemma all_equal_repeat {A : Type} (x : A) (l : list A) :
  (forall y, In y l -> y = x) -> l = repeat x (List.length l).
Proof.
  induction l as [|a l IH]; intros Hall; simpl.
  - reflexivity.
  - rewrite (Hall a (or_introl eq_refl)).
    f_equal. apply IH. intros y Hy. apply Hall. right. exact Hy.
Qed.

Lemma reachable_results (rtt_results : list rtt_result) :
  (forall r, In r rtt_results -> r <> None) ->
  exists rtt_uri_tuples, rtt_results = map Some rtt_uri_tuples.
Proof.
  induction rtt_results as [|r rs IH]; intros Hall.
  - exists []. reflexivity.
  - destruct IH as [ts Hts]; [intros r' Hr'; apply Hall; right; exact Hr'|].
    destruct r as [t|].
    + exists (t :: ts). simpl. rewrite Hts. reflexivity.
    + exfalso. apply (Hall None); [left|]; reflexivity.
Qed.

(** The URIs that come out of results all under one URI. *)
Lemma sorted_uris_under_one_uri (uri : string) (rtt_uri_tuples : list (Z * string)) :
  (forall t, In t rtt_uri_tuples -> snd t = uri) ->
  map snd (sorted rtt_uri_ltb rtt_uri_tuples)
  = repeat uri (List.length rtt_uri_tuples).
Proof.
  intros Hall.
  rewrite (all_equal_repeat uri (map snd (sorted rtt_uri_ltb rtt_uri_tuples))).
  - rewrite length_map.
    rewrite <- (Permutation_length (sorted_Permutation rtt_uri_ltb rtt_uri_tuples)).
    reflexivity.
  - intros y Hy.
    apply in_map_iff in Hy. destruct Hy as [t [<- Ht]].
    apply Hall.
    apply (Permutation_in _ (Permutation_sym (sorted_Permutation rtt_uri_ltb _))).
    exact Ht.
Qed.

Section SharedProbe.
Context {W A : Type}.
Variable executor : nat -> W.
Variable probe : W -> py rtt_result.
Variable uri : string.
Variable uri_desc : string.
Variable limit : option Z.

Hypothesis probe_uri : forall net rtt u, probe net = Return (Some (rtt, u)) -> u = uri.

Lemma gather_shared_reachable (records : list A) (i : nat) :
  (forall k, (i <= k < i + List.length records)%nat ->
             exists t, probe (executor k) = Return (Some t)) ->
  exists rtt_uri_tuples,
    gather executor i (map (fun _ => probe) records) = Return (map Some rtt_uri_tuples) /\
    List.length rtt_uri_tuples = List.length records /\
    forall t, In t rtt_uri_tuples -> snd t = uri.
Proof.
  revert i.
  induction records as [|record records IH]; intros i Hup.
  - exists []. repeat split. intros t [].
  - destruct (Hup i) as [[rtt u] Hi]; [simpl; lia|].
    destruct (IH (S i)) as [tuples [Hgather [Hlen Huri]]].
    { intros k Hk. apply Hup. simpl. lia. }
    exists ((rtt, u) :: tuples).
    simpl. rewrite Hi. simpl. rewrite Hgather. simpl.
    split; [reflexivity|].
    split; [rewrite Hlen; reflexivity|].
    intros t [<- | Ht]; [exact (probe_uri _ _ _ Hi) | apply Huri, Ht].
Qed.

Lemma gather_shared_returns (records : list A) (i : nat)
      (rtt_results : list rtt_result) :
  gather executor i (map (fun _ => probe) records) = Return rtt_results ->
  forall k, (i <= k < i + List.length records)%nat ->
            exists r, probe (executor k) = Return r /\ In r rtt_results.
Proof.
  revert i rtt_results.
  induction records as [|record records IH]; intros i rs Hgather k Hk.
  - simpl in Hk. lia.
  - simpl in Hgather.
    destruct (probe (executor i)) as [r|e] eqn:Hi; simpl in Hgather; [|discriminate].
    destruct (gather executor (S i) (map (fun _ => probe) records)) as [rs'|e] eqn:Hrest;
      simpl in Hgather; [|discriminate].
    injection Hgather as <-.
    destruct (Nat.eq_dec k i) as [-> | Hne].
    + exists r. split; [exact Hi | left; reflexivity].
    + destruct (IH (S i) rs' Hrest k) as [r' [Hr' Hin]]; [simpl in Hk; lia|].
      exists r'. split; [exact Hr' | right; exact Hin].
Qed.

Lemma gather_shared_total (records : list A) (i : nat) :
  (forall k e, (i <= k < i + List.length records)%nat -> probe (executor k) <> Raise e) ->
  exists rtt_results, gather executor i (map (fun _ => probe) records) = Return rtt_results.
Proof.
  revert i.
  induction records as [|record records IH]; intros i Hquiet.
  - exists []. reflexivity.
  - simpl.
    destruct (probe (executor i)) as [r|e] eqn:Hi.
    + destruct (IH (S i)) as [rs Hrs].
      { intros k e Hk. apply Hquiet. simpl. lia. }
      simpl. rewrite Hrs. eexists. reflexivity.
    + exfalso. apply (Hquiet i e); [simpl; lia | exact Hi].
Qed.

Lemma shared_ranking_when_reachable (records : list A) :
  (forall k, (k < List.length records)%nat ->
             exists t, probe (executor k) = Return (Some t)) ->
  _process_sort_return_rtt_ordering_results executor
    (map (fun _ => probe) records) uri_desc limit
  = Return (short_list_of (repeat uri (List.length records)) limit).
Proof.
  intros Hup.
  destruct (gather_shared_reachable records 0) as [tuples [Hgather [Hlen Huri]]].
  { intros k Hk. apply Hup. lia. }
  unfold _process_sort_return_rtt_ordering_results, result_list_of.
  rewrite Hgather. simpl.
  rewrite drop_unreachable_reachable. simpl.
  rewrite (sorted_uris_under_one_uri uri tuples Huri), Hlen.
  reflexivity.
Qed.

Lemma shared_ranking_when_unreachable (records : list A) (k : nat) :
  (k < List.length records)%nat ->
  probe (executor k) = Return None ->
  (exists e,
      _process_sort_return_rtt_ordering_results executor
        (map (fun _ => probe) records) uri_desc limit
      = Raise e) /\
  ((forall j e, (j < List.length records)%nat -> probe (executor j) <> Raise e) ->
   _process_sort_return_rtt_ordering_results executor
     (map (fun _ => probe) records) uri_desc limit
   = Raise TypeError).
Proof.
  intros Hk Hdown.
  unfold _process_sort_return_rtt_ordering_results, result_list_of.
  destruct (gather executor 0 (map (fun _ => probe) records)) as [rs|e] eqn:Hgather.
  - assert (Hin : In None rs).
    { destruct (gather_shared_returns records 0 rs Hgather k) as [r [Hr Hin]]; [lia|].
      rewrite Hdown in Hr. injection Hr as <-. exact Hin. }
    simpl. rewrite (drop_unreachable_None rs Hin). simpl.
    split; [exists TypeError; reflexivity | intros _; reflexivity].
  - simpl. split; [exists e; reflexivity|].
    intros Hquiet.
    destruct (gather_shared_total records 0) as [rs Hrs].
    { intros j e' Hj. apply Hquiet. lia. }
    rewrite Hrs in Hgather. discriminate Hgather.
Qed.

End SharedProbe.

Lemma ldap_probe_uri (secure : bool) (server_host : string) (server_port : Z)
      (net : ldap_net) (rtt : Z) (u : string) :
  _check_ldap_server_availability_and_rtt net server_host server_port secure
  = Return (Some (rtt, u)) ->
  u = ldap_uri_of server_host server_port.
Proof.
  unfold _check_ldap_server_availability_and_rtt.
  destruct (conn_new _) as [[]|e0]; simpl; [|discriminate].
  destruct (conn_open _) as [[]|e]; [|discriminate].
  destruct secure.
  - destruct (conn_start_tls _) as [[|]|e]; try discriminate.
    intros H. injection H as _ <-. reflexivity.
  - intros H. injection H as _ <-. reflexivity.
Qed.

Lemma kdc_probe_uri (fmt : string -> Z -> bool -> string)
      (server_host : string) (server_port : Z)
      (net : tcp_net) (rtt : Z) (u : string) :
  _check_kdc_availability_and_rtt fmt net server_host server_port
  = Return (Some (rtt, u)) ->
  u = fmt server_host server_port false.
Proof.
  unfold _check_kdc_availability_and_rtt, kdc_probe, kdc_candidates.
  destruct (new_socket net AF_INET) as [[]|e]; [|discriminate].
  destruct (new_socket net AF_INET6) as [[]|e]; [|discriminate].
  cbn [try_candidates].
  destruct (connect_result (connect_to net AF_INET6 _)) as [[]|e6]; cbn [fst].
  - intros H. injection H as _ <-. reflexivity.
  - destruct (connect_result (connect_to net AF_INET _)) as [[]|e4]; cbn [fst].
    + intros H. injection H as _ <-. reflexivity.
    + discriminate.
Qed.

(** X9: what the ordering functions return when the server of the last
    record answers every worker: as many copies of that server's URI as
    there are records, trimmed by the limit.  The other records add to the
    count and to nothing else. *)
Theorem ordering_lists_the_last_record_only
        (fmt : string -> Z -> bool -> string)
        (ldap_executor : nat -> ldap_net) (tcp_executor : nat -> tcp_net)
        (records : list server_tuple) (host : string) (port prio wt : Z)
        (limit : option Z) (secure : bool) :
  let all := records ++ [(host, port, prio, wt)] in
  ((forall k, (k < List.length all)%nat ->
              exists t,
                _check_ldap_server_availability_and_rtt (ldap_executor k) host port secure
                = Return (Some t)) ->
   _order_ldap_servers_by_rtt ldap_executor all limit secure
   = Return (short_list_of (repeat (ldap_uri_of host port) (List.length all)) limit)) /\
  ((forall k, (k < List.length all)%nat ->
              exists t,
                _check_kdc_availability_and_rtt fmt (tcp_executor k) host port
                = Return (Some t)) ->
   _order_kdcs_by_rtt fmt tcp_executor all limit
   = Return (short_list_of (repeat (fmt host port false) (List.length all)) limit)).
Proof.
  cbv zeta. split; intros Hup.
  - unfold _order_ldap_servers_by_rtt.
    rewrite lookup_fns_share_the_last_cells.
    exact (shared_ranking_when_reachable ldap_executor
             (fun net => _check_ldap_server_availability_and_rtt net host port secure)
             (ldap_uri_of host port) "LDAP" limit
             (ldap_probe_uri secure host port)
             (records ++ [(host, port, prio, wt)]) Hup).
  - unfold _order_kdcs_by_rtt.
    rewrite lookup_fns_share_the_last_cells.
    exact (shared_ranking_when_reachable tcp_executor
             (fun net => _check_kdc_availability_and_rtt fmt net host port)
             (fmt host port false) "KDC" limit
             (kdc_probe_uri fmt host port)
             (records ++ [(host, port, prio, wt)]) Hup).
Qed.

Lemma ordering_lists_the_last_record_only_witness :
  _order_ldap_servers_by_rtt Scenario.all_up
    ([("dc1.example.com", 389, 0, 100); ("dc3.example.com", 389, 1, 50)]
     ++ [("dc2.example.com", 636, 0, 100)]) (Some 2) true
  = Return ["ldap://dc2.example.com:636"; "ldap://dc2.example.com:636"].
Proof.
  destruct (ordering_lists_the_last_record_only
              Scenario.format_hostname_or_ip_and_port_to_uri
              Scenario.all_up (fun _ => Scenario.ipv4_only)
              [("dc1.example.com", 389, 0, 100); ("dc3.example.com", 389, 1, 50)]
              "dc2.example.com" 636 0 100 (Some 2) true) as [Hldap _].
  refine (Hldap _).
  intros k _. eexists. reflexivity.
Defined.

(** X10: when one worker finds the server of the last record unreachable,
    the ordering functions return no list, not even an empty one: they
    raise, whatever the other records are and whether their servers answer
    or not; and what they raise is [TypeError] unless the probe of some
    worker raised, which is then raised instead. *)
Theorem ordering_faults_when_the_last_record_is_down
        (fmt : string -> Z -> bool -> string)
        (ldap_executor : nat -> ldap_net) (tcp_executor : nat -> tcp_net)
        (records : list server_tuple) (host : string) (port prio wt : Z)
        (limit : option Z) (secure : bool) (k : nat) :
  (k < List.length (records ++ [(host, port, prio, wt)]))%nat ->
  (_check_ldap_server_availability_and_rtt (ldap_executor k) host port secure
   = Return None ->
   (exists e,
       _order_ldap_servers_by_rtt ldap_executor (records ++ [(host, port, prio, wt)])
         limit secure
       = Raise e) /\
   ((forall j e, (j < List.length (records ++ [(host, port, prio, wt)]))%nat ->
                 _check_ldap_server_availability_and_rtt (ldap_executor j) host port secure
                 <> Raise e) ->
    _order_ldap_servers_by_rtt ldap_executor (records ++ [(host, port, prio, wt)])
      limit secure
    = Raise TypeError)) /\
  (_check_kdc_availability_and_rtt fmt (tcp_executor k) host port = Return None ->
   (exists e,
       _order_kdcs_by_rtt fmt tcp_executor (records ++ [(host, port, prio, wt)]) limit
       = Raise e) /\
   ((forall j e, (j < List.length (records ++ [(host, port, prio, wt)]))%nat ->
                 _check_kdc_availability_and_rtt fmt (tcp_executor j) host port
                 <> Raise e) ->
    _order_kdcs_by_rtt fmt tcp_executor (records ++ [(host, port, prio, wt)]) limit
    = Raise TypeError)).
Proof.
  intros Hk. split; intros Hdown.
  - unfold _order_ldap_servers_by_rtt.
    rewrite lookup_fns_share_the_last_cells.
    exact (shared_ranking_when_unreachable ldap_executor
             (fun net => _check_ldap_server_availability_and_rtt net host port secure)
             "LDAP" limit (records ++ [(host, port, prio, wt)]) k Hk Hdown).
  - unfold _order_kdcs_by_rtt.
    rewrite lookup_fns_share_the_last_cells.
    exact (shared_ranking_when_unreachable tcp_executor
             (fun net => _check_kdc_availability_and_rtt fmt net host port)
             "KDC" limit (records ++ [(host, port, prio, wt)]) k Hk Hdown).
Qed.

Lemma ordering_faults_when_the_last_record_is_down_witness :
  _order_ldap_servers_by_rtt
    (fun _ uri => if (uri =? "ldap://dc2.example.com:389")%string
                  then Scenario.down else Scenario.up 0)
    ([("dc1.example.com", 389, 0, 100)] ++ [("dc2.example.com", 389, 0, 100)])
    None false
  = Raise TypeError.
Proof.
  destruct (ordering_faults_when_the_last_record_is_down
              Scenario.format_hostname_or_ip_and_port_to_uri
              (fun _ uri => if (uri =? "ldap://dc2.example.com:389")%string
                            then Scenario.down else Scenario.up 0)
              (fun _ => Scenario.ipv4_only)
              [("dc1.example.com", 389, 0, 100)] "dc2.example.com" 389 0 100
              None false 0%nat) as [Hldap _].
  - simpl. lia.
  - destruct (Hldap eq_refl) as [_ Htype].
    refine (Htype _).
    intros j e _. discriminate.
Defined.

(** ** The entry points once more *)

(** X11: a DNS answer without any record gives the empty list, for both
    entry points and every limit; no probe is made and nothing is
    raised. *)
Theorem no_record_gives_the_empty_list
        (Name : Type) (to_text : Name -> bool -> string) (seconds : Z)
        (ldap_format krb_format : string -> string)
        (ldap_site_format krb_site_format : string -> string -> string)
        (fmt : string -> Z -> bool -> string)
        (dns : dns_net Name) (ldap_executor : nat -> ldap_net)
        (tcp_executor : nat -> tcp_net)
        (domain : string) (site : option string) (limit : option Z) (secure : bool) :
  (dns (mk_Resolver seconds seconds) (ldap_srv_of ldap_format ldap_site_format domain site)
       rdatatype.SRV true = Return [] ->
   discover_ldap_domain_controllers_in_domain Name to_text seconds
     ldap_format ldap_site_format dns ldap_executor domain site limit secure
   = Return []) /\
  (dns (mk_Resolver seconds seconds) (krb_srv_of krb_format krb_site_format domain site)
       rdatatype.SRV true = Return [] ->
   discover_kdc_domain_controllers_in_domain Name to_text seconds
     krb_format krb_site_format fmt dns tcp_executor domain site limit
   = Return []).
Proof.
  split; intros Hdns.
  - unfold discover_ldap_domain_controllers_in_domain, _resolve_record_in_dns.
    rewrite Hdns. simpl. apply order_nothing_ldap.
  - unfold discover_kdc_domain_controllers_in_domain, _resolve_record_in_dns.
    rewrite Hdns. simpl. apply order_nothing_kdc.
Qed.

Lemma no_record_gives_the_empty_list_witness :
  Scenario.discover_ldap (fun _ _ _ _ => Return []) (fun _ _ => Scenario.down)
    "example.com" (Some "Paris") (Some 3) true
  = Return [].
Proof.
  destruct (no_record_gives_the_empty_list string Scenario.to_text
              Scenario.DNS_TIMEOUT_SECONDS
              Scenario.LDAP_DNS_SRV_FORMAT Scenario.KERBEROS_DNS_SRV_FORMAT
              Scenario.LDAP_SITE_AWARE_DNS_SRV_FORMAT
              Scenario.KERBEROS_SITE_AWARE_DNS_SRV_FORMAT
              Scenario.format_hostname_or_ip_and_port_to_uri
              (fun _ _ _ _ => Return []) (fun _ _ => Scenario.down)
              (fun _ => Scenario.ipv4_only)
              "example.com" (Some "Paris") (Some 3) true) as [Hldap _].
  apply Hldap. reflexivity.
Defined.
